(** * ffVtax: the k-mer index and the matching engine

    A shallow embedding of [bloom_filter_handler.py] and
    [sequence_matcher.py], and the properties of the k-mer index that the
    design document states about them.

    Conventions of the embedding.
    - A Python [str] is a [string]; its characters are the code points
      below 256, which covers FASTA text.
    - A Python [set] of strings is a [gset string], a [dict] keyed by
      strings a [gmap string _].  Python iterates a set in hash order, which
      changes from run to run; [elements] fixes one order.  Statements about
      emitted rows are therefore about the rows, not about their order.
    - A text file is the list of its lines as the file iterator yields them
      (gzip is transparent in text mode); a directory is the list of its
      files in the order of [os.walk].  Files are readable.
    - [pybloom_live.BloomFilter] is a third-party class.  It is taken through
      the interface the code uses: construction from a capacity, [add], and
      the [in] probe.  The class is modelled below its capacity: the real
      [add] raises [IndexError] once more elements were counted than the
      capacity allows, which cannot happen while no more than [capacity]
      elements were added.  The statements whose truth depends on it carry
      that bound, [within_capacity], as a hypothesis.
    - The worker pool of [load_database_multithreaded] is run one task after
      the other, in submission order.  The pool never reads the result of a
      task, so an exception of a task would be lost; below the capacity of
      the filter no task raises. *)

From Stdlib Require Import ZArith String Ascii SpecFloat DecimalString.
From stdpp Require Import gmap strings list fin_maps.

(** ** Python string primitives *)

Module PyStr.

(** [str.isspace] on one character, for code points below 256. *)
Definition isspace (c : ascii) : bool :=
  let n := nat_of_ascii c in
  ((9 <=? n) && (n <=? 13)) || ((28 <=? n) && (n <=? 32))
  || (n =? 133) || (n =? 160).

(** [\d] of the [re] module, for code points below 256. *)
Definition isdigit (c : ascii) : bool :=
  let n := nat_of_ascii c in (48 <=? n) && (n <=? 57).

Fixpoint lstrip (s : string) : string :=
  match s with
  | EmptyString => EmptyString
  | String c s' => if isspace c then lstrip s' else s
  end.

Fixpoint rstrip (s : string) : string :=
  match s with
  | EmptyString => EmptyString
  | String c s' =>
      match rstrip s' with
      | EmptyString => if isspace c then EmptyString else String c EmptyString
      | r => String c r
      end
  end.

(** [s.strip()] *)
Definition strip (s : string) : string := rstrip (lstrip s).

(** [s.startswith(p)] *)
Definition startswith (p s : string) : bool := String.prefix p s.

(** [s[n:]] *)
Definition drop (n : nat) (s : string) : string :=
  substring n (String.length s - n) s.

(** [s.endswith(p)] *)
Definition endswith (p s : string) : bool :=
  (String.length p <=? String.length s)
  && String.eqb (drop (String.length s - String.length p) s) p.

(** [s.endswith((p1, p2, ...))] *)
Definition endswith_any (ps : list string) (s : string) : bool :=
  existsb (λ p, endswith p s) ps.

(** [''.join(l)] *)
Definition join (l : list string) : string := String.concat "" l.

Definition flush (cur : string) : list string :=
  match cur with EmptyString => [] | _ => [cur] end.

Fixpoint split_from (cur s : string) : list string :=
  match s with
  | EmptyString => flush cur
  | String c s' =>
      if isspace c then flush cur ++ split_from "" s'
      else split_from (cur +:+ String c "") s'
  end.

(** [s.split()]: the maximal runs of non-blank characters. *)
Definition split (s : string) : list string := split_from "" s.

Definition nonempty (s : string) : bool :=
  match s with EmptyString => false | _ => true end.

(** [os.path.join(a, b)] for a relative [b] (posix). *)
Definition path_join (a b : string) : string :=
  if nonempty a then (if endswith "/" a then a +:+ b else a +:+ "/" +:+ b)
  else b.

Fixpoint span_digits (s : string) : string * string :=
  match s with
  | EmptyString => ("", "")
  | String c s' =>
      if isdigit c then let '(d, r) := span_digits s' in (String c d, r)
      else ("", s)
  end.

(** [GCA_\d+\.\d+] matched at the head of [s].  Both [\d+] are greedy and
    no shorter run can be followed by the dot, so the match is the one
    with the longest runs. *)
Definition gca_at (s : string) : option string :=
  if startswith "GCA_" s then
    let '(d1, r1) := span_digits (drop 4 s) in
    match r1 with
    | String "."%char r2 =>
        let '(d2, _) := span_digits r2 in
        if nonempty d1 && nonempty d2
        then Some ("GCA_" +:+ d1 +:+ "." +:+ d2) else None
    | _ => None
    end
  else None.

(** [re.search(r'(GCA_\d+\.\d+)', s)]: the leftmost match. *)
Fixpoint search_gca (s : string) : option string :=
  match gca_at s with
  | Some g => Some g
  | None =>
      match s with
      | EmptyString => None
      | String _ s' => search_gca s'
      end
  end.

End PyStr.

(** ** Python floats: true division of integers and the [.4f] format *)

Module PyFloat.

Definition prec : Z := 53.
Definition emax : Z := 1024.

(** [a / b] on non-negative [int]s with [b > 0]: the binary64 number
    nearest to the exact quotient (ties to even). *)
Definition true_div (a b : nat) : spec_float :=
  match Z.of_nat a with
  | Z0 => S754_zero false
  | za =>
      let '(mz, ez, lz) := SFdiv_core_binary prec emax za 0 (Z.of_nat b) 0 in
      binary_round_aux prec emax false mz ez lz
  end.

(** The integer [0] that the code uses for an empty set; [.4f] prints it
    as the float zero. *)
Definition zero : spec_float := S754_zero false.

Definition round_half_even (num den : Z) : Z :=
  let q := (num / den)%Z in
  let r := (num mod den)%Z in
  match (2 * r ?= den)%Z with
  | Lt => q
  | Gt => (q + 1)%Z
  | Eq => if Z.even q then q else (q + 1)%Z
  end.

(** [m * 2^e * 10^4] rounded to an integer, ties to even. *)
Definition scaled4 (m : positive) (e : Z) : Z :=
  if (0 <=? e)%Z then (Z.pos m * 2 ^ e * 10000)%Z
  else round_half_even (Z.pos m * 10000) (2 ^ (- e)).

Definition digit (n : Z) : ascii := ascii_of_nat (48 + Z.to_nat (n mod 10)).

Definition fixed4 (n : Z) : string :=
  NilZero.string_of_uint (N.to_uint (Z.to_N (n / 10000)))
  +:+ "."
  +:+ String (digit (n / 1000))
        (String (digit (n / 100))
           (String (digit (n / 10)) (String (digit n) ""))).

Definition sign (s : bool) : string := if s then "-" else "".

(** [f"{x:.4f}"] *)
Definition format_4f (x : spec_float) : string :=
  match x with
  | S754_zero s => sign s +:+ "0.0000"
  | S754_finite s m e => sign s +:+ fixed4 (scaled4 m e)
  | S754_infinity s => sign s +:+ "inf"
  | S754_nan => "nan"
  end.

End PyFloat.

(** ** Exceptions *)

Inductive exn : Set :=
| ValueError
| FileNotFoundError
| AttributeError
| TypeError
| IndexError.

Inductive result (A : Type) : Type :=
| Ok (a : A)
| Raise (e : exn).
Arguments Ok {A} a.
Arguments Raise {A} e.

Global Instance result_ret : MRet result := λ A a, Ok a.
Global Instance result_bind : MBind result := λ A B f m,
  match m with
  | Ok a => f a
  | Raise e => Raise e
  end.

(** A [for] loop whose body may raise. *)
Fixpoint for_each {S A : Type} (body : S → A → result S) (l : list A) (s : S)
  : result S :=
  match l with
  | [] => Ok s
  | a :: l' => s' ← body s a; for_each body l' s'
  end.

(** ** The probabilistic membership set *)

Class Membership (B : Type) : Type := {
  (** [BloomFilter(capacity=capacity, error_rate=0.001)], for a positive
      capacity (the constructor raises [ValueError] otherwise, see
      [_initialize_bloom_filter]) *)
  bf_new : nat → B;
  (** [b.add(kmer)], below the capacity of [b] *)
  bf_add : string → B → B;
  (** [kmer in b] *)
  bf_contains : string → B → bool;
}.

(** What a Bloom filter promises: an element that was added probes as
    present, whatever was added afterwards. *)
Definition no_false_negatives (B : Type) `{Membership B} : Prop :=
  (∀ x b, bf_contains x (bf_add x b) = true)
  ∧ (∀ x y b, bf_contains y b = true → bf_contains y (bf_add x b) = true).

(** ** [BloomFilterHandler] *)

(** A reference file: its path and its lines. *)
Definition file : Type := string * list string.

Section Handler.
Context {B : Type} `{Membership B}.

(** The attributes of a handler.  [error_rate] is the constant 0.001 and is
    part of [bf_new]. *)
Record BloomFilterHandler : Type := {
  kmer_size : nat;
  factor : nat;
  bloom : option B;
  kmer_to_reference : gmap string (gset string);
  reference_kmer_count : gmap string nat;
  reference_gca_map : gmap string string;
  reference_sequences : gmap string string;
}.

Definition with_bloom (h : BloomFilterHandler) (b : option B) :=
  {| kmer_size := kmer_size h; factor := factor h; bloom := b;
     kmer_to_reference := kmer_to_reference h;
     reference_kmer_count := reference_kmer_count h;
     reference_gca_map := reference_gca_map h;
     reference_sequences := reference_sequences h |}.

Definition with_kmer_to_reference (h : BloomFilterHandler)
    (m : gmap string (gset string)) :=
  {| kmer_size := kmer_size h; factor := factor h; bloom := bloom h;
     kmer_to_reference := m;
     reference_kmer_count := reference_kmer_count h;
     reference_gca_map := reference_gca_map h;
     reference_sequences := reference_sequences h |}.

Definition with_reference_kmer_count (h : BloomFilterHandler)
    (m : gmap string nat) :=
  {| kmer_size := kmer_size h; factor := factor h; bloom := bloom h;
     kmer_to_reference := kmer_to_reference h;
     reference_kmer_count := m;
     reference_gca_map := reference_gca_map h;
     reference_sequences := reference_sequences h |}.

Definition with_reference_gca_map (h : BloomFilterHandler)
    (m : gmap string string) :=
  {| kmer_size := kmer_size h; factor := factor h; bloom := bloom h;
     kmer_to_reference := kmer_to_reference h;
     reference_kmer_count := reference_kmer_count h;
     reference_gca_map := m;
     reference_sequences := reference_sequences h |}.

(** [BloomFilterHandler(kmer_size, factor)] *)
Definition __init__ (kmer_size factor : nat) : BloomFilterHandler :=
  {| kmer_size := kmer_size; factor := factor; bloom := None;
     kmer_to_reference := ∅; reference_kmer_count := ∅;
     reference_gca_map := ∅; reference_sequences := ∅ |}.

(** [BloomFilterHandler()] *)
Definition default_handler : BloomFilterHandler := __init__ 21 4.

Definition _count_kmers_in_sequence (h : BloomFilterHandler)
    (sequence : string) : nat :=
  if kmer_size h <=? String.length sequence
  then String.length sequence - kmer_size h + 1
  else 0.

(** One turn of the loop of [estimate_kmers], on the pair
    [(kmer_count, sequence)]. *)
Definition estimate_line (h : BloomFilterHandler) (st : nat * string)
    (raw : string) : nat * string :=
  let '(kmer_count, sequence) := st in
  let line := PyStr.strip raw in
  if negb (PyStr.nonempty line) then st
  else if PyStr.startswith ">" line
       then (kmer_count + _count_kmers_in_sequence h sequence, "")
       else (kmer_count, sequence +:+ line).

Definition estimate_kmers (h : BloomFilterHandler) (f : file) : nat :=
  let '(kmer_count, sequence) := fold_left (estimate_line h) f.2 (0, "") in
  kmer_count + _count_kmers_in_sequence h sequence.

Definition estimated_extensions : list string := [".fna"; ".fna.gz"].

Definition _estimate_total_kmers_in_db (h : BloomFilterHandler)
    (db : list file) : nat :=
  fold_left
    (λ total_kmers f,
       if PyStr.endswith_any estimated_extensions f.1
       then total_kmers + estimate_kmers h f else total_kmers)
    db 0.

(** [BloomFilter] raises [ValueError] when the capacity is not positive. *)
Definition _initialize_bloom_filter (h : BloomFilterHandler)
    (capacity : nat) : result BloomFilterHandler :=
  if 0 <? capacity then Ok (with_bloom h (Some (bf_new capacity)))
  else Raise ValueError.

Definition _extract_gca_from_filename (file_path : string) : string :=
  match PyStr.search_gca file_path with
  | Some g => g
  | None => "Unknown"
  end.

Definition extract_kmers (h : BloomFilterHandler) (sequence : string)
  : list string :=
  map (λ i, substring i (kmer_size h) sequence)
      (seq 0 (String.length sequence + 1 - kmer_size h)).

(** The name of a header line, and the warning that is printed, if any. *)
Definition _extract_reference_name (header_line : string)
  : result (string * option string) :=
  if PyStr.startswith ">" header_line then
    match PyStr.split header_line with
    | tok :: _ => Ok (PyStr.drop 1 tok, None)
    | [] => Raise IndexError
    end
  else
    Ok ("Unknown",
        Some ("Warning: Header line format is incorrect: " +:+ header_line)).

(** The body of [for kmer in kmers] in [_add_kmers_to_bloom], below the
    capacity of the filter: [self.bloom.add(kmer)] comes first, so an add
    that raised would leave the reverse index and the raw counts as they
    were. *)
Definition add_kmer (reference_name : string) (h : BloomFilterHandler)
    (kmer : string) : result BloomFilterHandler :=
  match bloom h with
  | None => Raise AttributeError
  | Some b =>
      let refs := default ∅ (kmer_to_reference h !! kmer) in
      Ok (with_kmer_to_reference (with_bloom h (Some (bf_add kmer b)))
            (<[kmer := {[reference_name]} ∪ refs]> (kmer_to_reference h)))
  end.

Definition _add_kmers_to_bloom (h : BloomFilterHandler)
    (sequence reference_name : string) : result (nat * BloomFilterHandler) :=
  let kmers := extract_kmers h sequence in
  h' ← for_each (add_kmer reference_name) kmers h;
  let old := default 0 (reference_kmer_count h' !! reference_name) in
  Ok (length kmers,
      with_reference_kmer_count h'
        (<[reference_name := old + length kmers]> (reference_kmer_count h'))).

(** [current_reference and sequence_data]: the reference, when both are
    truthy. *)
Definition pending (current_reference : option string)
    (sequence_data : list string) : option string :=
  match current_reference, sequence_data with
  | Some ref, _ :: _ => if PyStr.nonempty ref then Some ref else None
  | _, _ => None
  end.

(** The local variables of [_process_file_kmers], with the handler. *)
Definition scan : Type :=
  nat * option string * list string * BloomFilterHandler.

(** One turn of the loop of [_process_file_kmers]. *)
Definition process_line (gca_name : string) (st : scan) (raw : string)
  : result scan :=
  let '(actual_kmer_count, current_reference, sequence_data, h) := st in
  let line := PyStr.strip raw in
  if PyStr.startswith ">" line then
    '(count1, data1, h1) ←
      match pending current_reference sequence_data with
      | Some ref =>
          '(n, h') ← _add_kmers_to_bloom h (PyStr.join sequence_data) ref;
          Ok (actual_kmer_count + n, [], h')
      | None => Ok (actual_kmer_count, sequence_data, h)
      end;
    '(name, _) ← _extract_reference_name line;
    Ok (count1, Some name, data1,
        with_reference_gca_map h1 (<[name := gca_name]> (reference_gca_map h1)))
  else
    Ok (actual_kmer_count, current_reference, sequence_data ++ [line], h).

Definition _process_file_kmers (h : BloomFilterHandler) (f : file)
  : result (nat * BloomFilterHandler) :=
  let gca_name := _extract_gca_from_filename f.1 in
  '(actual_kmer_count, current_reference, sequence_data, h1) ←
    for_each (process_line gca_name) f.2 (0, None, [], h);
  match pending current_reference sequence_data with
  | Some ref =>
      '(n, h2) ← _add_kmers_to_bloom h1 (PyStr.join sequence_data) ref;
      Ok (actual_kmer_count + n, h2)
  | None => Ok (actual_kmer_count, h1)
  end.

Definition ingested_extensions : list string :=
  [".fna"; ".fna.gz"; ".fasta"; ".fasta.gz"].

(** The walk over the files that both builders share: every file with an
    accepted extension goes through [_process_file_kmers]; the numbers the
    calls return are summed. *)
Definition ingest_file (st : nat * BloomFilterHandler) (f : file)
  : result (nat * BloomFilterHandler) :=
  let '(actual_kmer_count, h) := st in
  if PyStr.endswith_any ingested_extensions f.1 then
    '(n, h') ← _process_file_kmers h f;
    Ok (actual_kmer_count + n, h')
  else Ok st.

(** The source returns [None] and prints the total; the model returns the
    total it prints, with the handler. *)
Definition _load_kmers_into_bloom (h : BloomFilterHandler) (db : list file)
  : result (nat * BloomFilterHandler) :=
  for_each ingest_file db (0, h).

(** [num_threads] is a Python [int]: [ThreadPoolExecutor] raises
    [ValueError] when [max_workers] is not positive.  The tasks are the
    calls of [_process_file_kmers], in submission order. *)
Definition load_database_multithreaded (h : BloomFilterHandler)
    (db : list file) (num_threads : Z) : result BloomFilterHandler :=
  let estimated_kmers := _estimate_total_kmers_in_db h db in
  if 0 <? estimated_kmers then
    let capacity := estimated_kmers * factor h in
    h1 ← _initialize_bloom_filter h capacity;
    if (0 <? num_threads)%Z then
      '(_, h') ← for_each ingest_file db (0, h1);
      Ok h'
    else Raise ValueError
  else Raise ValueError.

Definition get_reference_kmers (h : BloomFilterHandler)
    (reference_name : string) : list string :=
  (filter (λ kv : string * gset string, reference_name ∈ kv.2)
          (map_to_list (kmer_to_reference h))).*1.

(** What [pickle.dump] writes: the five saved attributes. *)
Record Pickled : Type := {
  p_bloom : option B;
  p_kmer_to_reference : gmap string (gset string);
  p_reference_kmer_count : gmap string nat;
  p_reference_gca_map : gmap string string;
  p_reference_sequences : gmap string string;
}.

(** [save_bloom_filter], on the files of the disk that hold an index, for a
    [directory] that can be made: [os.makedirs] raises [FileNotFoundError]
    for the empty path, which the statements about saving exclude. *)
Definition save_bloom_filter (h : BloomFilterHandler) (directory : string)
    (disk : gmap string Pickled) : gmap string Pickled :=
  let file_path := PyStr.path_join directory "bloom_filter.pkl" in
  let data_to_save :=
    {| p_bloom := bloom h;
       p_kmer_to_reference := kmer_to_reference h;
       p_reference_kmer_count := reference_kmer_count h;
       p_reference_gca_map := reference_gca_map h;
       p_reference_sequences := reference_sequences h |} in
  <[file_path := data_to_save]> disk.

Definition load_bloom_filter (h : BloomFilterHandler) (file_path : string)
    (disk : gmap string Pickled) : result BloomFilterHandler :=
  match disk !! file_path with
  | Some data_loaded =>
      Ok {| kmer_size := kmer_size h; factor := factor h;
            bloom := p_bloom data_loaded;
            kmer_to_reference := p_kmer_to_reference data_loaded;
            reference_kmer_count := p_reference_kmer_count data_loaded;
            reference_gca_map := p_reference_gca_map data_loaded;
            reference_sequences := p_reference_sequences data_loaded |}
  | None => Raise FileNotFoundError
  end.

(** ** [SequenceMatcher] *)

(** A row of the result file, as passed to [writer.writerow]. *)
Record Row : Type := {
  sequence_name : string;
  total_input_kmers : nat;
  reference : string;
  matched_kmers : nat;
  reference_total_kmers : nat;
  gca_name : string;
  jacc : string;
  qcov : string;
}.

Definition _extract_kmers (h : BloomFilterHandler) (sequence : string)
  : list string :=
  map (λ i, substring i (kmer_size h) sequence)
      (seq 0 (String.length sequence + 1 - kmer_size h)).

(** One turn of the loop of [_read_fasta_file]: the records yielded so far,
    [sequence_name] and [sequence_data]. *)
Definition read_line (st : list (string * string) * option string * list string)
    (raw : string) : list (string * string) * option string * list string :=
  let '(yielded, sequence_name, sequence_data) := st in
  let line := PyStr.strip raw in
  if PyStr.startswith ">" line then
    (match sequence_name with
     | Some name => yielded ++ [(name, PyStr.join sequence_data)]
     | None => yielded
     end,
     Some (PyStr.drop 1 line), [])
  else (yielded, sequence_name, sequence_data ++ [line]).

Definition _read_fasta_file (lines : list string) : list (string * string) :=
  let '(yielded, sequence_name, sequence_data) :=
    fold_left read_line lines ([], None, []) in
  match sequence_name with
  | Some name => yielded ++ [(name, PyStr.join sequence_data)]
  | None => yielded
  end.

(** [kmer_to_reference[kmer]] on the [defaultdict(set)]: a missing key is
    created with an empty set. *)
Definition getitem_kmer_to_reference (h : BloomFilterHandler) (kmer : string)
  : gset string * BloomFilterHandler :=
  match kmer_to_reference h !! kmer with
  | Some refs => (refs, h)
  | None => (∅, with_kmer_to_reference h (<[kmer := ∅]> (kmer_to_reference h)))
  end.

(** [reference_kmer_matches[ref].add(kmer)] *)
Definition add_match (kmer : string) (matches : gmap string (gset string))
    (ref : string) : gmap string (gset string) :=
  <[ref := {[kmer]} ∪ default ∅ (matches !! ref)]> matches.

(** The body of [for kmer in input_kmers]. *)
Definition match_kmer (st : BloomFilterHandler * gmap string (gset string))
    (kmer : string) : result (BloomFilterHandler * gmap string (gset string)) :=
  let '(h, matches) := st in
  match bloom h with
  | None => Raise TypeError
  | Some b =>
      if bf_contains kmer b then
        let '(refs, h') := getitem_kmer_to_reference h kmer in
        Ok (h', fold_left (add_match kmer) (elements refs) matches)
      else Ok st
  end.

(** The body of [for ref, matched_kmers in reference_kmer_matches.items()]. *)
Definition score (h : BloomFilterHandler) (sequence_name : string)
    (input_kmers : gset string) (item : string * gset string) : Row :=
  let '(ref, matched_kmers) := item in
  let reference_kmers_set : gset string :=
    list_to_set (get_reference_kmers h ref) in
  let both := size (input_kmers ∩ reference_kmers_set) in
  let '(j, q) :=
    if (0 <? size input_kmers) && (0 <? size reference_kmers_set)
    then (PyFloat.true_div both (size (input_kmers ∪ reference_kmers_set)),
          PyFloat.true_div both (size reference_kmers_set))
    else (PyFloat.zero, PyFloat.zero) in
  {| sequence_name := sequence_name;
     total_input_kmers := size input_kmers;
     reference := ref;
     matched_kmers := size matched_kmers;
     reference_total_kmers := default 0 (reference_kmer_count h !! ref);
     gca_name := default "Unknown" (reference_gca_map h !! ref);
     jacc := PyFloat.format_4f j;
     qcov := PyFloat.format_4f q |}.

(** The rows written for one query, and the handler afterwards. *)
Definition _match_sequence (h : BloomFilterHandler)
    (sequence_name sequence_data : string)
  : result (list Row * BloomFilterHandler) :=
  let input_kmers : gset string := list_to_set (_extract_kmers h sequence_data) in
  '(h', reference_kmer_matches) ←
    for_each match_kmer (elements input_kmers) (h, ∅);
  Ok (map (score h' sequence_name input_kmers)
          (map_to_list reference_kmer_matches), h').


(** The rows written below [header_row] for a query file, and the handler
    afterwards. *)
Definition match_sequences (h : BloomFilterHandler) (query_file : list string)
  : result (list Row * BloomFilterHandler) :=
  for_each
    (λ st (record : string * string),
       let '(rows, h) := st in
       '(new_rows, h') ← _match_sequence h record.1 record.2;
       Ok (rows ++ new_rows, h'))
    (_read_fasta_file query_file) ([], h).

End Handler.

Arguments BloomFilterHandler B : clear implicits.
Arguments Pickled B : clear implicits.

(** ** Two membership sets *)

(** The ideal membership set: it remembers exactly what was added. *)
Global Instance exact_membership : Membership (gset string) := {|
  bf_new _ := ∅;
  bf_add kmer b := {[kmer]} ∪ b;
  bf_contains kmer b := bool_decide (kmer ∈ b);
|}.

(** A Bloom filter with two hash functions over one bit per unit of
    capacity: [bits] is the bit array, read as a binary number. *)
Record bit_filter : Type := {
  num_bits : N;
  bits : N;
}.

Fixpoint string_hash (seed num_bits acc : N) (s : string) : N :=
  match s with
  | EmptyString => acc
  | String c s' =>
      string_hash seed num_bits ((acc * seed + N_of_ascii c) mod num_bits)%N s'
  end.

Definition slots (num_bits : N) (s : string) : list N :=
  [string_hash 31 num_bits 0 s; string_hash 131 num_bits 0 s].

Global Instance bit_membership : Membership bit_filter := {|
  bf_new capacity := {| num_bits := N.of_nat capacity; bits := 0 |};
  bf_add kmer b :=
    {| num_bits := num_bits b;
       bits := fold_left N.setbit (slots (num_bits b) kmer) (bits b) |};
  bf_contains kmer b := forallb (N.testbit (bits b)) (slots (num_bits b) kmer);
|}.

(** ** Vocabulary of the statements *)

Section Vocabulary.
Context {B : Type} `{Membership B}.
Implicit Types h : BloomFilterHandler B.

(** The references a k-mer is catalogued under; none when the reverse index
    has no entry for it. *)
Definition refs_of h (kmer : string) : gset string :=
  default ∅ (kmer_to_reference h !! kmer).

(** [R = kmers_for(reference_id)], the deduplicated k-mers of a reference. *)
Definition kmers_for h (ref : string) : gset string :=
  list_to_set (get_reference_kmers h ref).

(** [Q], the deduplicated k-mers of a query. *)
Definition query_kmers h (sequence_data : string) : gset string :=
  list_to_set (_extract_kmers h sequence_data).

(** The answer of the probe [kmer in bloom] of a handler whose filter
    exists. *)
Definition probe h (kmer : string) : bool :=
  match bloom h with
  | Some b => bf_contains kmer b
  | None => false
  end.

(** The k-mers of [Q] that hit a reference: the probe answers yes and the
    reverse index lists the reference. *)
Definition matched_set h (Q : gset string) (ref : string) : gset string :=
  filter (λ kmer, probe h kmer = true ∧ ref ∈ refs_of h kmer) Q.

(** [h'] is [h] after the reverse index was read at the k-mers of [l] that
    probe as present: every attribute is the one of [h], except that such a
    k-mer without an entry has got an empty one. *)
Definition touched (l : list string) h h' : Prop :=
  kmer_size h' = kmer_size h
  ∧ factor h' = factor h
  ∧ bloom h' = bloom h
  ∧ reference_kmer_count h' = reference_kmer_count h
  ∧ reference_gca_map h' = reference_gca_map h
  ∧ reference_sequences h' = reference_sequences h
  ∧ ∀ kmer, kmer_to_reference h' !! kmer =
      match kmer_to_reference h !! kmer with
      | Some refs => Some refs
      | None => if decide (kmer ∈ l ∧ probe h kmer = true) then Some ∅ else None
      end.

(** Two handlers answer every query alike: same [k], a filter in both or in
    neither, the same references for every k-mer, the same probe answer for
    every k-mer that has a reference, the same counts and accessions.
    Entries without a reference, and probe answers on k-mers without a
    reference, are not told apart. *)
Definition same_answers h h' : Prop :=
  kmer_size h' = kmer_size h
  ∧ (bloom h' = None ↔ bloom h = None)
  ∧ (∀ kmer, refs_of h' kmer = refs_of h kmer)
  ∧ (∀ kmer, refs_of h kmer ≠ ∅ → probe h' kmer = probe h kmer)
  ∧ reference_kmer_count h' = reference_kmer_count h
  ∧ reference_gca_map h' = reference_gca_map h.

(** How two runs compare: the same rows and handlers that answer alike, or
    the same exception. *)
Definition same_outcome (r r' : result (list Row * BloomFilterHandler B))
  : Prop :=
  match r, r' with
  | Ok (rows, h), Ok (rows', h') => rows' = rows ∧ same_answers h h'
  | Raise e, Raise e' => e' = e
  | _, _ => False
  end.

(** [b] after the k-mers of [l] were added, first to last. *)
Definition add_all (l : list string) (b : B) : B :=
  fold_left (λ b kmer, bf_add kmer b) l b.

(** [h'] is [h] after [_add_kmers_to_bloom] stored the k-mers [kmers] under
    the reference [ref]. *)
Definition added h (kmers : list string) (ref : string) h' : Prop :=
  kmer_size h' = kmer_size h
  ∧ factor h' = factor h
  ∧ bloom h' = add_all kmers <$> bloom h
  ∧ (∀ kmer, kmer_to_reference h' !! kmer =
       if decide (kmer ∈ kmers) then Some ({[ref]} ∪ refs_of h kmer)
       else kmer_to_reference h !! kmer)
  ∧ reference_kmer_count h' =
      <[ref := default 0 (reference_kmer_count h !! ref) + length kmers]>
        (reference_kmer_count h)
  ∧ reference_gca_map h' = reference_gca_map h
  ∧ reference_sequences h' = reference_sequences h.

(** The filter of [h] was made for [capacity] elements and then received
    the k-mers [inserted], and the keys of the reverse index are among
    them. *)
Definition inserted_index (capacity : nat) (inserted : list string) h : Prop :=
  bloom h = Some (add_all inserted (bf_new capacity))
  ∧ ∀ kmer, kmer ∈ dom (kmer_to_reference h) → kmer ∈ inserted.


(** Every header line of [lines] carries a name that satisfies [okname]. *)
Definition headers_ok (okname : string → Prop) (lines : list string) : Prop :=
  ∀ raw name w, raw ∈ lines →
    PyStr.startswith ">" (PyStr.strip raw) = true →
    _extract_reference_name (PyStr.strip raw) = Ok (name, w) → okname name.

(** The rows a run wrote, without the handler. *)
Definition emitted (r : result (list Row * BloomFilterHandler B))
  : result (list Row) :=
  '(rows, _) ← r; Ok rows.

(** The handler that [build_bf.py] saves: a fresh handler on which the
    database was loaded, with the four threads that [--threads] defaults
    to. *)
Definition build (kmer_size : nat) (db : list file)
  : result (BloomFilterHandler B) :=
  load_database_multithreaded (__init__ kmer_size 4) db 4.


(** The build of [db] stays within the capacity of its filter: the k-mers
    that its tasks pass to [add], counted with their repetitions, are no
    more than the capacity, the estimate times four.  The filter counts no
    more elements than were added, so no [add] of the build raises. *)
Definition within_capacity (kmer_size : nat) (db : list file) : Prop :=
  let h0 : BloomFilterHandler B := __init__ kmer_size 4 in
  let capacity := _estimate_total_kmers_in_db h0 db * 4 in
  ∃ h1 n h,
    _initialize_bloom_filter h0 capacity = Ok h1
    ∧ _load_kmers_into_bloom h1 db = Ok (n, h)
    ∧ n ≤ capacity.

(** A FASTA file as the format has it: nothing but blank lines before the
    first header, and a name on every header.  [seen] tells whether a header
    was met. *)
Fixpoint well_formed_lines (seen : bool) (lines : list string) : bool :=
  match lines with
  | [] => true
  | raw :: rest =>
      let line := PyStr.strip raw in
      if PyStr.startswith ">" line then
        match _extract_reference_name line with
        | Ok (name, _) => PyStr.nonempty name
        | Raise _ => false
        end && well_formed_lines true rest
      else (seen || negb (PyStr.nonempty line)) && well_formed_lines seen rest
  end.

Definition well_formed (f : file) : bool := well_formed_lines false f.2.

(** How the state of the estimator and the state of the reader of
    [_process_file_kmers] correspond after the same lines of a well-formed
    file. *)
Definition in_step h0 (seen : bool) (est : nat * string) (st : @scan B)
  : Prop :=
  let '(c, cur, data, h) := st in
  is_Some (bloom h) ∧ kmer_size h = kmer_size h0
  ∧ PyStr.join data = est.2 ∧ c = est.1
  ∧ match cur with
    | None => seen = false ∧ est = (0, "")
    | Some r => seen = true ∧ PyStr.nonempty r = true
    end.

End Vocabulary.

(** ** The example of the design document *)

(** One reference, [ref1], with body [ACGTACGT], in a file whose name carries
    an accession. *)
Definition example_db : list file :=
  [("db/GCA_000123.1_viral.fna", [">ref1 example reference
"; "ACGTACGT
"])].

(** A query with the same body. *)
Definition example_query : list string :=
  [">query1
"; "ACGTACGT
"].



(** A query of one k-mer, [AAA], that no reference contains. *)
Definition stray_query : list string :=
  [">stray
"; "AAA
"].

Section Example.
Context {B : Type} `{Membership B}.

(** The index that the build of [example_db] with [k = 3] yields: six
    k-mers were added to a filter made for [6 * 4] elements. *)
Definition example_index : BloomFilterHandler B :=
  {| kmer_size := 3;
     factor := 4;
     bloom := Some (add_all ["ACG"; "CGT"; "GTA"; "TAC"; "ACG"; "CGT"]
                            (bf_new 24));
     kmer_to_reference :=
       {[ "ACG" := {["ref1"]}; "CGT" := {["ref1"]};
          "GTA" := {["ref1"]}; "TAC" := {["ref1"]} ]};
     reference_kmer_count := {[ "ref1" := 6 ]};
     reference_gca_map := {[ "ref1" := "GCA_000123.1" ]};
     reference_sequences := ∅ |}.

(** The row that the example expects. *)
Definition example_row : Row :=
  {| sequence_name := "query1";
     total_input_kmers := 4;
     reference := "ref1";
     matched_kmers := 4;
     reference_total_kmers := 6;
     gca_name := "GCA_000123.1";
     jacc := "1.0000";
     qcov := "1.0000" |}.

End Example.

(** ** More of the code, and the vocabulary of its properties *)

(** The sum of the raw counts of a [reference_kmer_count]. *)
Definition sum_counts (m : gmap string nat) : nat :=
  map_fold (λ _ n total, n + total) 0 m.

Section MoreVocabulary.
Context {B : Type} `{Membership B}.
Implicit Types h : BloomFilterHandler B.

(** Every reference of the reverse index is named, counted and has an
    accession, and no k-mer is catalogued without a reference. *)
Definition catalog_consistent h : Prop :=
  ∀ kmer refs, kmer_to_reference h !! kmer = Some refs →
    refs ≠ ∅
    ∧ ∀ ref, ref ∈ refs →
        PyStr.nonempty ref = true
        ∧ ref ∈ dom (reference_kmer_count h)
        ∧ ref ∈ dom (reference_gca_map h).

(** [get_reference_sequence] *)
Definition get_reference_sequence h (reference_name : string) : string :=
  default "" (reference_sequences h !! reference_name).

End MoreVocabulary.

(** A line that opens a record: after [strip] it begins with the marker. *)
Definition is_header (raw : string) : bool :=
  PyStr.startswith ">" (PyStr.strip raw).

(** No character of [s] is white space. *)
Fixpoint no_blank (s : string) : bool :=
  match s with
  | EmptyString => true
  | String c s' => negb (PyStr.isspace c) && no_blank s'
  end.

(** [s] is empty or begins with white space. *)
Definition ends_token (s : string) : bool :=
  match s with
  | EmptyString => true
  | String c _ => PyStr.isspace c
  end.

(** What the generator of [_read_fasta_file] has yielded when the input
    ends. *)
Definition yield_last (st : list (string * string) * option string * list string)
  : list (string * string) :=
  let '(yielded, sequence_name, sequence_data) := st in
  match sequence_name with
  | Some name => yielded ++ [(name, PyStr.join sequence_data)]
  | None => yielded
  end.

(** Every character of [s] is a decimal digit. *)
Fixpoint all_digits (s : string) : bool :=
  match s with
  | EmptyString => true
  | String c s' => PyStr.isdigit c && all_digits s'
  end.

(** [s] does not begin with a decimal digit. *)
Definition no_leading_digit (s : string) : bool :=
  match s with
  | EmptyString => true
  | String c _ => negb (PyStr.isdigit c)
  end.

(** The pattern [GCA_\d+\.\d+] occurs in [s]. *)
Definition holds_accession (s : string) : Prop :=
  ∃ before d1 d2 rest,
    s = before +:+ "GCA_" +:+ d1 +:+ "." +:+ d2 +:+ rest
    ∧ all_digits d1 = true ∧ PyStr.nonempty d1 = true
    ∧ all_digits d2 = true ∧ PyStr.nonempty d2 = true.

(** ** The TaxID column ([gca_to_taxid.py]) *)

Definition tab : ascii := "009"%char.

(** [s.split(sep)] for a separator of one character; [cur] is the part
    read so far. *)
Fixpoint split_on (sep : ascii) (cur s : string) : list string :=
  match s with
  | EmptyString => [cur]
  | String c s' =>
      if Ascii.eqb c sep then cur :: split_on sep "" s'
      else split_on sep (cur +:+ String c "") s'
  end.

(** The body of [for line in file] in [load_taxid_map]. *)
Definition taxid_line (gca_to_taxid : gmap string string) (line : string)
  : gmap string string :=
  match split_on tab "" (PyStr.strip line) with
  | [gca; taxid] => <[gca := taxid]> gca_to_taxid
  | _ => gca_to_taxid
  end.

(** [load_taxid_map], on the lines of the map file. *)
Definition load_taxid_map (taxid_map_file : list string) : gmap string string :=
  fold_left taxid_line taxid_map_file ∅.









(** No character of [s] is a tab. *)
Fixpoint no_tab (s : string) : bool :=
  match s with
  | EmptyString => true
  | String c s' => negb (Ascii.eqb c tab) && no_tab s'
  end.

(** ** More examples *)

(** A reference file with the [.fasta] extension. *)
Definition fasta_db : list file :=
  [("db/GCA_000789.1_other.fasta", [">ref9
"; "ACGTACGT
"])].

(** A reference file whose only header line has no name. *)
Definition nameless_file : file :=
  ("db/GCA_000321.1_nameless.fna", [">
"; "ACGTACGT
"]).

(** A map file: a comment, two lines for the same accession and a line
    whose TaxID is missing. *)
Definition example_taxid_map : list string :=
  ["# accession, taxid
"; "GCA_000123.1" +:+ String tab "1
"; "GCA_000123.1" +:+ String tab "10239
"; "GCA_000456.2" +:+ String tab "
"].

(** * Properties *)

(** ** Strings *)

Lemma substring_length (s : string) : ∀ n m,
  n + m ≤ String.length s → String.length (substring n m s) = m.
Proof.
  induction s as [|c s IH]; intros [|n] [|m] Hle; simpl in *; try lia; auto.
  all: rewrite IH; [done | lia].
Qed.

Lemma append_String (x : ascii) (a b : string) :
  String x a +:+ b = String x (a +:+ b).
Proof. reflexivity. Qed.

Lemma append_assoc (a b c : string) : (a +:+ b) +:+ c = a +:+ (b +:+ c).
Proof.
  induction a as [|x a IH]; [done|]. by rewrite !append_String, IH.
Qed.

Lemma append_empty_r (a : string) : a +:+ "" = a.
Proof.
  induction a as [|x a IH]; [done|]. by rewrite append_String, IH.
Qed.


Lemma join_cons (x : string) (l : list string) :
  PyStr.join (x :: l) = x +:+ PyStr.join l.
Proof.
  unfold PyStr.join. destruct l as [|y l]; [by rewrite append_empty_r | done].
Qed.

Lemma join_snoc (l : list string) (x : string) :
  PyStr.join (l ++ [x]) = PyStr.join l +:+ x.
Proof.
  induction l as [|y l IH].
  - done.
  - rewrite <- app_comm_cons, !join_cons, IH. by rewrite append_assoc.
Qed.

(** The accession of a file name, on the two names of the design
    document; the formats on quotients that fall on a rounding tie. *)
Example accession_found :
  _extract_gca_from_filename "GCA_000123.1_viral.fna" = "GCA_000123.1".
Proof. reflexivity. Qed.

Example accession_missing :
  _extract_gca_from_filename "unlabeled.fna" = "Unknown".
Proof. reflexivity. Qed.

Example format_ties :
  PyFloat.format_4f (PyFloat.true_div 1 32) = "0.0312"
  ∧ PyFloat.format_4f (PyFloat.true_div 3 32) = "0.0938"
  ∧ PyFloat.format_4f (PyFloat.true_div 1 20000) = "0.0001"
  ∧ PyFloat.format_4f (PyFloat.true_div 2 3) = "0.6667".
Proof. vm_compute. done. Qed.

(** ** K-mer extraction *)

Section Extraction.
Context {B : Type} `{Membership B}.
Implicit Types h : BloomFilterHandler B.

Lemma extract_kmers_length h s :
  length (extract_kmers h s) = String.length s + 1 - kmer_size h.
Proof. unfold extract_kmers. by rewrite length_map, length_seq. Qed.

Lemma extract_kmers_lookup h s i :
  i < String.length s + 1 - kmer_size h →
  extract_kmers h s !! i = Some (substring i (kmer_size h) s).
Proof.
  intros Hi. unfold extract_kmers.
  rewrite list_lookup_fmap, lookup_seq_lt by done. done.
Qed.

Lemma _extract_kmers_eq h s : _extract_kmers h s = extract_kmers h s.
Proof. reflexivity. Qed.

Lemma extract_kmers_count h s :
  length (extract_kmers h s) = _count_kmers_in_sequence h s.
Proof.
  rewrite extract_kmers_length. unfold _count_kmers_in_sequence.
  destruct (Nat.leb_spec (kmer_size h) (String.length s)); lia.
Qed.

(** C3. For a sequence of length [L] and [k ≤ L], extraction returns
    [L - k + 1] windows; the window at offset [i], for [i] from [0] to
    [L - k], has length [k] and holds the characters [i .. i + k - 1] of the
    sequence, so the windows come in the order of their offsets with stride
    one.  For [L < k] nothing is returned.  The matcher's extraction is the
    same function. *)
Theorem C3_extraction_windows h (s : string) :
  (kmer_size h ≤ String.length s →
     length (extract_kmers h s) = String.length s - kmer_size h + 1
     ∧ ∀ i, i ≤ String.length s - kmer_size h →
         ∃ w, extract_kmers h s !! i = Some w
              ∧ String.length w = kmer_size h
              ∧ ∀ j, j < kmer_size h → get j w = get (i + j) s)
  ∧ (String.length s < kmer_size h → extract_kmers h s = [])
  ∧ _extract_kmers h s = extract_kmers h s.
Proof.
  split; [|split].
  - intros Hk. split.
    + rewrite extract_kmers_length. lia.
    + intros i Hi. exists (substring i (kmer_size h) s). split; [|split].
      * apply extract_kmers_lookup. lia.
      * apply substring_length. lia.
      * intros j Hj. rewrite substring_correct1 by done. f_equal. lia.
  - intros Hk. apply length_zero_iff_nil. rewrite extract_kmers_length. lia.
  - apply _extract_kmers_eq.
Qed.

End Extraction.

(** C3 at [k = 3] on [ACGTACGT]. *)
Lemma C3_extraction_windows_witness :
  length (extract_kmers (__init__ (B:=gset string) 3 4) "ACGTACGT") = 6
  ∧ extract_kmers (__init__ (B:=gset string) 3 4) "AC" = [].
Proof.
  pose proof (C3_extraction_windows (__init__ (B:=gset string) 3 4) "ACGTACGT")
    as (Hlong & _ & _).
  pose proof (C3_extraction_windows (__init__ (B:=gset string) 3 4) "AC")
    as (_ & Hshort & _).
  split.
  - destruct Hlong as [-> _]; [simpl; lia | reflexivity].
  - apply Hshort. simpl. lia.
Defined.

(** ** Loops *)

Lemma for_each_cons {S A} (body : S → A → result S) a l s :
  for_each body (a :: l) s = body s a ≫= for_each body l.
Proof. reflexivity. Qed.

Lemma for_each_app {S A} (body : S → A → result S) l1 l2 s :
  for_each body (l1 ++ l2) s = for_each body l1 s ≫= for_each body l2.
Proof.
  revert s. induction l1 as [|a l1 IH]; intros s; [done|].
  rewrite <- app_comm_cons, !for_each_cons.
  destruct (body s a) as [s'|e]; [apply IH | done].
Qed.

(** ** One query against the index *)

Section Matching.
Context {B : Type} `{MB : Membership B}.
Implicit Types h : BloomFilterHandler B.
Implicit Types m : gmap string (gset string).

Lemma elem_of_kmers_for h ref x : x ∈ kmers_for h ref ↔ ref ∈ refs_of h x.
Proof.
  unfold kmers_for, get_reference_kmers, refs_of.
  rewrite elem_of_list_to_set, list_elem_of_fmap. split.
  - intros ([k refs] & -> & [Hin Hm]%list_elem_of_filter).
    apply elem_of_map_to_list in Hm. simpl in *. by rewrite Hm.
  - intros Hin. destruct (kmer_to_reference h !! x) as [refs|] eqn:E; [|set_solver].
    exists (x, refs). split; [done|]. apply list_elem_of_filter. split; [done|].
    by apply elem_of_map_to_list.
Qed.

Lemma fold_add_match_lookup kmer (rs : list string) m ref :
  fold_left (add_match kmer) rs m !! ref =
    if decide (ref ∈ rs) then Some ({[kmer]} ∪ default ∅ (m !! ref)) else m !! ref.
Proof.
  revert m. induction rs as [|r rs IH]; intros m.
  - rewrite decide_False by apply not_elem_of_nil. done.
  - change (fold_left (add_match kmer) (r :: rs) m)
      with (fold_left (add_match kmer) rs (add_match kmer m r)).
    rewrite IH. unfold add_match. destruct (decide (ref = r)) as [->|Hne].
    + rewrite lookup_insert_eq. simpl.
      rewrite (decide_True (P := r ∈ r :: rs)) by (apply elem_of_cons; by left).
      case_decide; [|done]. f_equal. set_solver.
    + rewrite lookup_insert_ne by done.
      destruct (decide (ref ∈ rs)).
      * rewrite decide_True by (apply elem_of_cons; by right). done.
      * rewrite decide_False; [done|]. rewrite elem_of_cons. naive_solver.
Qed.

Lemma probe_Some h b x : bloom h = Some b → probe h x = bf_contains x b.
Proof. unfold probe. by intros ->. Qed.

Lemma touched_refl h : touched [] h h.
Proof.
  repeat split; try done. intros x. destruct (kmer_to_reference h !! x); [done|].
  rewrite decide_False; [done|]. intros [[]%not_elem_of_nil _].
Qed.

Lemma touched_probe l h h' x : touched l h h' → probe h' x = probe h x.
Proof. intros (_ & _ & Hb & _). unfold probe. by rewrite Hb. Qed.

Lemma touched_refs_of l h h' x : touched l h h' → refs_of h' x = refs_of h x.
Proof.
  intros (_ & _ & _ & _ & _ & _ & Hk). unfold refs_of. rewrite Hk.
  destruct (kmer_to_reference h !! x); [done|]. by case_decide.
Qed.

Lemma touched_same_answers l h h' : touched l h h' → same_answers h h'.
Proof.
  intros Ht. pose proof Ht as (Hk & _ & Hb & Hc & Hg & _).
  repeat split; try done; try congruence.
  - intros x. by eapply touched_refs_of.
  - intros x _. by eapply touched_probe.
Qed.

Lemma same_answers_refl h : same_answers h h.
Proof. by repeat split. Qed.

Lemma same_answers_sym h h' : same_answers h h' → same_answers h' h.
Proof.
  intros (Hk & Hb & Hr & Hp & Hc & Hg). repeat split; try done; try tauto.
  intros x Hx. symmetry. apply Hp. by rewrite <- Hr.
Qed.

Lemma same_answers_trans h1 h2 h3 :
  same_answers h1 h2 → same_answers h2 h3 → same_answers h1 h3.
Proof.
  intros (Hk & Hb & Hr & Hp & Hc & Hg) (Hk' & Hb' & Hr' & Hp' & Hc' & Hg').
  repeat split; try congruence; try tauto.
  intros x Hx. rewrite Hp', Hp; [done..|]. by rewrite Hr.
Qed.

Lemma touched_cons a l h h1 h' :
  touched [a] h h1 → touched l h1 h' → touched (a :: l) h h'.
Proof.
  intros H1 H2. pose proof (λ x, touched_probe _ _ _ x H1) as Hp.
  destruct H1 as (Hk1 & Hf1 & Hb1 & Hc1 & Hg1 & Hs1 & Hm1).
  destruct H2 as (Hk2 & Hf2 & Hb2 & Hc2 & Hg2 & Hs2 & Hm2).
  repeat split; try congruence.
  intros x. rewrite Hm2, Hm1. specialize (Hp x).
  destruct (kmer_to_reference h !! x); [done|].
  destruct (decide (x ∈ [a] ∧ probe h x = true)) as [[Hx Hpx]|Hn].
  - rewrite decide_True; [done|]. split; [|done].
    apply list_elem_of_singleton in Hx as ->. apply elem_of_cons. by left.
  - destruct (decide (x ∈ l ∧ probe h1 x = true)) as [[Hx Hpx]|Hn'].
    + rewrite decide_True; [done|]. split; [|congruence].
      apply elem_of_cons. by right.
    + rewrite decide_False; [done|]. intros [[->|Hx]%elem_of_cons Hpx].
      * apply Hn. split; [|done]. by apply list_elem_of_singleton.
      * apply Hn'. split; [done|congruence].
Qed.

Lemma match_kmer_spec h m a b :
  bloom h = Some b →
  ∃ h1 m1, match_kmer (h, m) a = Ok (h1, m1) ∧ touched [a] h h1
    ∧ ∀ ref, m1 !! ref =
        if decide (probe h a = true ∧ ref ∈ refs_of h a)
        then Some ({[a]} ∪ default ∅ (m !! ref)) else m !! ref.
Proof.
  intros Hb. unfold match_kmer. rewrite Hb.
  pose proof (probe_Some h b a Hb) as Hp.
  destruct (bf_contains a b) eqn:Hc.
  - unfold getitem_kmer_to_reference, refs_of.
    destruct (kmer_to_reference h !! a) as [refs|] eqn:Hl.
    + eexists _, _. split; [done|]. split.
      * repeat split; try done. intros x.
        destruct (kmer_to_reference h !! x) eqn:Hx; [done|].
        rewrite decide_False; [done|].
        intros [->%list_elem_of_singleton _]. congruence.
      * intros ref. rewrite fold_add_match_lookup. simpl.
        destruct (decide (ref ∈ refs)).
        -- rewrite decide_True by (by apply elem_of_elements).
           rewrite decide_True; done.
        -- rewrite decide_False by (by rewrite elem_of_elements).
           rewrite decide_False; [done|]. naive_solver.
    + eexists _, _. split; [done|]. split.
      * repeat split; try done. intros x. simpl.
        destruct (decide (x = a)) as [->|Hne].
        -- rewrite lookup_insert_eq, Hl. rewrite decide_True; [done|].
           split; [by apply list_elem_of_singleton | congruence].
        -- rewrite lookup_insert_ne by done.
           destruct (kmer_to_reference h !! x); [done|].
           rewrite decide_False; [done|].
           intros [?%list_elem_of_singleton _]. done.
      * intros ref. rewrite elements_empty. simpl.
        rewrite decide_False; [done|]. set_solver.
  - eexists _, _. split; [done|]. split.
    + repeat split; try done. intros x.
      destruct (kmer_to_reference h !! x); [done|].
      rewrite decide_False; [done|].
      intros [->%list_elem_of_singleton ?]. congruence.
    + intros ref. rewrite decide_False; [done|]. intros [? _]. congruence.
Qed.

Lemma match_loop_spec (l : list string) : ∀ h m b,
  bloom h = Some b →
  ∃ h' m', for_each match_kmer l (h, m) = Ok (h', m') ∧ touched l h h'
    ∧ (∀ ref x, x ∈ default ∅ (m' !! ref) ↔
         x ∈ default ∅ (m !! ref)
         ∨ (x ∈ l ∧ probe h x = true ∧ ref ∈ refs_of h x))
    ∧ (∀ ref, m' !! ref = None ↔
         m !! ref = None
         ∧ ∀ x, x ∈ l → ¬ (probe h x = true ∧ ref ∈ refs_of h x)).
Proof.
  induction l as [|a l IH]; intros h m b Hb.
  - exists h, m. split; [done|]. split; [apply touched_refl|]. split.
    + intros ref x. rewrite elem_of_nil. naive_solver.
    + intros ref. split; [|naive_solver]. intros ?. split; [done|].
      intros x []%not_elem_of_nil.
  - destruct (match_kmer_spec h m a b Hb) as (h1 & m1 & E1 & T1 & L1).
    assert (bloom h1 = Some b) as Hb1.
    { destruct T1 as (_ & _ & -> & _). done. }
    destruct (IH h1 m1 b Hb1) as (h' & m' & E2 & T2 & M2 & N2).
    exists h', m'. split; [|split; [|split]].
    + rewrite for_each_cons, E1. done.
    + by eapply touched_cons.
    + intros ref x. rewrite M2, L1, elem_of_cons.
      rewrite (touched_probe _ _ _ x T1), (touched_refs_of _ _ _ x T1).
      destruct (decide (probe h a = true ∧ ref ∈ refs_of h a)) as [Hd|Hd]; simpl.
      * rewrite elem_of_union, elem_of_singleton. naive_solver.
      * naive_solver.
    + intros ref. rewrite N2, L1.
      setoid_rewrite elem_of_cons.
      split.
      * intros [Hm Hx].
        destruct (decide (probe h a = true ∧ ref ∈ refs_of h a)) as [Hd|Hd]; [done|].
        split; [done|].
        intros x [->|Hin]; [done|].
        specialize (Hx x Hin).
        by rewrite (touched_probe _ _ _ x T1), (touched_refs_of _ _ _ x T1) in Hx.
      * intros [Hm Hx]. rewrite decide_False by (apply Hx; by left).
        split; [done|]. intros x Hin.
        rewrite (touched_probe _ _ _ x T1), (touched_refs_of _ _ _ x T1).
        apply Hx. by right.
Qed.

Lemma match_loop_no_filter (l : list string) h m st :
  bloom h = None → for_each match_kmer l (h, m) = Ok st → l = [] ∧ st = (h, m).
Proof.
  intros Hb. destruct l as [|a l]; simpl.
  - intros [= <-]. done.
  - rewrite Hb. done.
Qed.

Lemma matched_set_alike h h' (Q : gset string) ref :
  same_answers h h' → matched_set h' Q ref = matched_set h Q ref.
Proof.
  intros (_ & _ & Hr & Hp & _). unfold matched_set. apply set_eq. intros x.
  rewrite !elem_of_filter, Hr. split; intros [[Hx Hin] HQ]; (split; [split|]); try done.
  - rewrite <- Hp; [done|]. set_solver.
  - rewrite Hp; [done|]. set_solver.
Qed.

Lemma kmers_for_alike h h' ref :
  same_answers h h' → kmers_for h' ref = kmers_for h ref.
Proof.
  intros (_ & _ & Hr & _). apply set_eq. intros x.
  by rewrite !elem_of_kmers_for, Hr.
Qed.

Lemma score_alike h h' name (Q : gset string) item :
  same_answers h h' → score h' name Q item = score h name Q item.
Proof.
  intros Ha. pose proof Ha as (_ & _ & _ & _ & Hc & Hg).
  destruct item as [ref M]. unfold score.
  change (list_to_set (get_reference_kmers h' ref)) with (kmers_for h' ref).
  change (list_to_set (get_reference_kmers h ref)) with (kmers_for h ref).
  by rewrite (kmers_for_alike h h' ref Ha), Hc, Hg.
Qed.

Lemma query_kmers_alike h h' data :
  same_answers h h' → query_kmers h' data = query_kmers h data.
Proof. intros (Hk & _). unfold query_kmers, _extract_kmers. by rewrite Hk. Qed.

Lemma matches_lookup h (Q : gset string) h' m' :
  for_each match_kmer (elements Q) (h, ∅) = Ok (h', m') →
  ∀ ref, m' !! ref =
    if decide (matched_set h Q ref = ∅) then None else Some (matched_set h Q ref).
Proof.
  intros E ref. destruct (bloom h) as [b|] eqn:Hb.
  - destruct (match_loop_spec (elements Q) h ∅ b Hb) as (h2 & m2 & E2 & _ & M & N).
    rewrite E in E2. injection E2 as <- <-.
    assert (∀ x, x ∈ default ∅ (m' !! ref) ↔ x ∈ matched_set h Q ref) as Hm.
    { intros x. rewrite M, lookup_empty. unfold matched_set.
      rewrite elem_of_filter, elem_of_elements. set_solver. }
    destruct (m' !! ref) as [M'|] eqn:El.
    + assert (M' = matched_set h Q ref) as -> by (apply set_eq; apply Hm).
      rewrite decide_False; [done|]. intros He.
      assert (m' !! ref = None) as Hn; [|congruence].
      apply N. split; [apply lookup_empty|]. intros x Hx [Hp Hr].
      assert (x ∈ matched_set h Q ref) as Hin; [|set_solver].
      unfold matched_set. apply elem_of_filter.
      apply elem_of_elements in Hx. done.
    + rewrite decide_True; [done|]. apply set_eq. intros x. rewrite <- Hm. set_solver.
  - apply match_loop_no_filter in E as [_ [= -> ->]]; [|done].
    rewrite lookup_empty, decide_True; [done|].
    apply set_eq. intros x. unfold matched_set, probe. rewrite elem_of_filter, Hb.
    set_solver.
Qed.

Lemma _match_sequence_spec h name data rows h' :
  _match_sequence h name data = Ok (rows, h') →
  ∃ m, rows = map (score h name (query_kmers h data)) (map_to_list m)
    ∧ (∀ ref, m !! ref =
         if decide (matched_set h (query_kmers h data) ref = ∅) then None
         else Some (matched_set h (query_kmers h data) ref))
    ∧ touched (elements (query_kmers h data)) h h'.
Proof.
  unfold _match_sequence. fold (query_kmers h data).
  destruct (for_each match_kmer (elements (query_kmers h data)) (h, ∅))
    as [[h1 m]|e] eqn:E; [|done].
  intros [= <- <-]. exists m.
  assert (touched (elements (query_kmers h data)) h h1) as Ht.
  { destruct (bloom h) as [b|] eqn:Hb.
    - destruct (match_loop_spec (elements (query_kmers h data)) h ∅ b Hb)
        as (h2 & m2 & E2 & T & _). rewrite E in E2. by injection E2 as <- <-.
    - pose proof E as E'. apply match_loop_no_filter in E' as [El [= -> _]]; [|done].
      rewrite El. apply touched_refl. }
  split; [|split; [|done]].
  - apply map_ext. intros item. apply score_alike. by eapply touched_same_answers.
  - by eapply matches_lookup.
Qed.

Lemma _match_sequence_total h name data :
  is_Some (bloom h) → ∃ rows h', _match_sequence h name data = Ok (rows, h').
Proof.
  intros [b Hb]. unfold _match_sequence. fold (query_kmers h data).
  destruct (match_loop_spec (elements (query_kmers h data)) h ∅ b Hb)
    as (h2 & m2 & E2 & _). rewrite E2. eexists _, _. done.
Qed.

Lemma _match_sequence_no_filter h name data :
  bloom h = None →
  _match_sequence h name data =
    if decide (query_kmers h data = ∅) then Ok ([], h) else Raise TypeError.
Proof.
  intros Hb. unfold _match_sequence. fold (query_kmers h data).
  destruct (elements (query_kmers h data)) as [|a l] eqn:E.
  - apply elements_empty_iff in E. apply leibniz_equiv in E.
    rewrite decide_True by done. simpl. by rewrite map_to_list_empty.
  - rewrite decide_False.
    + rewrite for_each_cons. unfold match_kmer. by rewrite Hb.
    + intros He. rewrite He, elements_empty in E. done.
Qed.

Lemma _match_sequence_alike h h' name data :
  same_answers h h' →
  same_outcome (_match_sequence h name data) (_match_sequence h' name data).
Proof.
  intros Ha. pose proof Ha as (_ & Hb & _).
  destruct (bloom h) as [b|] eqn:E.
  - destruct (bloom h') as [b'|] eqn:E'; [|by destruct Hb as [Hb _]; specialize (Hb eq_refl)].
    destruct (_match_sequence_total h name data) as (rows & h1 & R); [by rewrite E|].
    destruct (_match_sequence_total h' name data) as (rows' & h1' & R'); [by rewrite E'|].
    rewrite R, R'. simpl.
    apply _match_sequence_spec in R as (m & -> & L & T).
    apply _match_sequence_spec in R' as (m' & -> & L' & T').
    rewrite (query_kmers_alike h h' data Ha) in *.
    assert (m' = m) as ->.
    { apply map_eq. intros ref. rewrite L, L'.
      by rewrite (matched_set_alike h h' _ ref Ha). }
    split.
    + apply map_ext. intros item. by apply score_alike.
    + eapply same_answers_trans; [|by eapply touched_same_answers].
      eapply same_answers_trans; [|exact Ha].
      apply same_answers_sym. by eapply touched_same_answers.
  - assert (bloom h' = None) as E' by (by apply Hb).
    rewrite !_match_sequence_no_filter by done.
    rewrite (query_kmers_alike h h' data Ha). by case_decide.
Qed.

Lemma match_sequences_alike h h' query_file :
  same_answers h h' →
  same_outcome (match_sequences h query_file) (match_sequences h' query_file).
Proof.
  unfold match_sequences. generalize (_read_fasta_file query_file) as records.
  generalize (@nil Row) as rows0. intros rows0 records. revert rows0 h h'.
  induction records as [|[name data] records IH]; intros rows0 h h' Ha.
  - simpl. done.
  - rewrite !for_each_cons. simpl.
    pose proof (_match_sequence_alike h h' name data Ha) as Hs.
    destruct (_match_sequence h name data) as [[rows h1]|e],
             (_match_sequence h' name data) as [[rows' h1']|e']; simpl in *; try done.
    destruct Hs as [-> Ha1]. by apply IH.
Qed.
End Matching.

Lemma for_each_inv {S A} (body : S → A → result S) (I : list A → S → Prop) :
  (∀ a l s, I (a :: l) s → ∃ s', body s a = Ok s' ∧ I l s') →
  ∀ l s, I l s → ∃ s', for_each body l s = Ok s' ∧ I [] s'.
Proof.
  intros Hstep l. induction l as [|a l IH]; intros s Hs.
  - by exists s.
  - destruct (Hstep a l s Hs) as (s1 & E & Hs1).
    destruct (IH s1 Hs1) as (s' & E' & Hs'). exists s'. split; [|done].
    by rewrite for_each_cons, E.
Qed.

(** ** Building the index *)

Section Build.
Context {B : Type} `{MB : Membership B}.
Implicit Types h : BloomFilterHandler B.

Lemma add_all_snoc (l : list string) x (b : B) :
  add_all (l ++ [x]) b = bf_add x (add_all l b).
Proof. unfold add_all. by rewrite fold_left_app. Qed.

Lemma add_all_app (l1 l2 : list string) (b : B) :
  add_all (l1 ++ l2) b = add_all l2 (add_all l1 b).
Proof. unfold add_all. by rewrite fold_left_app. Qed.

Lemma add_all_contains (l : list string) (b : B) x :
  no_false_negatives B → x ∈ l → bf_contains x (add_all l b) = true.
Proof.
  intros [Hadd Hmono]. induction l as [|y l IH] using rev_ind.
  - intros []%not_elem_of_nil.
  - rewrite add_all_snoc, elem_of_app, list_elem_of_singleton.
    intros [Hin| ->]; [apply Hmono; auto | apply Hadd].
Qed.

Lemma add_kmer_Some ref h kmer b :
  bloom h = Some b →
  add_kmer ref h kmer =
    Ok (with_kmer_to_reference (with_bloom h (Some (bf_add kmer b)))
          (<[kmer := {[ref]} ∪ refs_of h kmer]> (kmer_to_reference h))).
Proof. unfold add_kmer. by intros ->. Qed.

(** What [for kmer in kmers] of [_add_kmers_to_bloom] does to a handler. *)
Lemma add_kmers_loop ref (l : list string) : ∀ h b,
  bloom h = Some b →
  ∃ h', for_each (add_kmer ref) l h = Ok h'
    ∧ kmer_size h' = kmer_size h ∧ factor h' = factor h
    ∧ bloom h' = Some (add_all l b)
    ∧ (∀ x, kmer_to_reference h' !! x =
         if decide (x ∈ l) then Some ({[ref]} ∪ refs_of h x)
         else kmer_to_reference h !! x)
    ∧ reference_kmer_count h' = reference_kmer_count h
    ∧ reference_gca_map h' = reference_gca_map h
    ∧ reference_sequences h' = reference_sequences h.
Proof.
  induction l as [|a l IH]; intros h b Hb.
  - exists h. by repeat split.
  - rewrite for_each_cons, (add_kmer_Some ref h a b Hb).
    set (h1 := with_kmer_to_reference _ _).
    destruct (IH h1 (bf_add a b) eq_refl)
      as (h' & E & Hk & Hf & Hb' & Hm & Hc & Hg & Hs).
    exists h'. split; [exact E|]. repeat split; try done.
    intros x. rewrite Hm. unfold refs_of, h1. simpl.
    destruct (decide (x = a)) as [->|Hne].
    + rewrite lookup_insert_eq. simpl.
      rewrite (decide_True (P := a ∈ a :: l)) by (apply elem_of_cons; by left).
      case_decide; [f_equal; set_solver | done].
    + rewrite lookup_insert_ne by done.
      destruct (decide (x ∈ l)).
      * rewrite decide_True by (apply elem_of_cons; by right). done.
      * rewrite decide_False; [done|]. rewrite elem_of_cons. naive_solver.
Qed.

Lemma _add_kmers_to_bloom_spec h sequence ref :
  is_Some (bloom h) →
  ∃ h', _add_kmers_to_bloom h sequence ref
          = Ok (length (extract_kmers h sequence), h')
    ∧ added h (extract_kmers h sequence) ref h'.
Proof.
  intros [b Hb]. unfold _add_kmers_to_bloom.
  destruct (add_kmers_loop ref (extract_kmers h sequence) h b Hb)
    as (h' & E & Hk & Hf & Hb' & Hm & Hc & Hg & Hs).
  rewrite E. simpl. eexists. split; [done|].
  unfold added. simpl. rewrite Hb, Hc. by split_and!.
Qed.

Lemma added_bloom h kmers ref h' :
  added h kmers ref h' → is_Some (bloom h) → is_Some (bloom h').
Proof. intros (_ & _ & -> & _) [b ->]. by eexists. Qed.

Lemma startswith_marker line :
  PyStr.startswith ">" line = true → ∃ rest, line = String ">" rest.
Proof.
  destruct line as [|c rest]; [done|]. unfold PyStr.startswith.
  change (String.prefix ">" (String c rest))
    with (if ascii_dec ">"%char c then String.prefix "" rest else false).
  destruct (ascii_dec ">"%char c) as [<-|]; [by eexists | done].
Qed.

Lemma split_from_nonempty cur s :
  PyStr.nonempty cur = true → ∃ tok rest, PyStr.split_from cur s = tok :: rest.
Proof.
  revert cur. induction s as [|c s IH]; intros cur Hcur; simpl.
  - destruct cur; [done|]. by eexists _, _.
  - destruct (PyStr.isspace c).
    + destruct cur; [done|]. by eexists _, _.
    + apply IH. by destruct cur.
Qed.

Lemma _extract_reference_name_header line :
  PyStr.startswith ">" line = true →
  ∃ tok rest, PyStr.split line = tok :: rest
    ∧ _extract_reference_name line = Ok (PyStr.drop 1 tok, None).
Proof.
  intros Hs. unfold _extract_reference_name. rewrite Hs.
  destruct (startswith_marker line Hs) as [rest ->].
  destruct (split_from_nonempty ">" rest eq_refl) as (tok & toks & E).
  exists tok, toks. unfold PyStr.split.
  change (PyStr.split_from "" (String ">" rest)) with (PyStr.split_from ">" rest).
  by rewrite E.
Qed.


(** The ways one line is processed. *)
Lemma process_line_body gca_name count cur data h raw :
  PyStr.startswith ">" (PyStr.strip raw) = false →
  process_line gca_name (count, cur, data, h) raw
    = Ok (count, cur, data ++ [PyStr.strip raw], h).
Proof. intros Hs. unfold process_line. by rewrite Hs. Qed.

Lemma process_line_header gca_name count cur data h raw :
  PyStr.startswith ">" (PyStr.strip raw) = true →
  is_Some (bloom h) →
  ∃ name, _extract_reference_name (PyStr.strip raw) = Ok (name, None)
    ∧ ((pending cur data = None
        ∧ process_line gca_name (count, cur, data, h) raw
            = Ok (count, Some name, data,
                  with_reference_gca_map h
                    (<[name := gca_name]> (reference_gca_map h))))
       ∨ (∃ ref h1, pending cur data = Some ref
            ∧ added h (extract_kmers h (PyStr.join data)) ref h1
            ∧ process_line gca_name (count, cur, data, h) raw
                = Ok (count + length (extract_kmers h (PyStr.join data)),
                      Some name, [],
                      with_reference_gca_map h1
                        (<[name := gca_name]> (reference_gca_map h1))))).
Proof.
  intros Hs Hb.
  destruct (_extract_reference_name_header _ Hs) as (tok & toks & _ & E).
  exists (PyStr.drop 1 tok). split; [done|].
  unfold process_line. rewrite Hs.
  destruct (pending cur data) as [ref|] eqn:Hp.
  - right. destruct (_add_kmers_to_bloom_spec h (PyStr.join data) ref Hb)
      as (h1 & E1 & A1).
    exists ref, h1. split; [done|]. split; [done|].
    rewrite E1. simpl. rewrite E. done.
  - left. split; [done|]. simpl. rewrite E. done.
Qed.

Lemma pending_Some cur data ref :
  pending cur data = Some ref →
  cur = Some ref ∧ PyStr.nonempty ref = true ∧ data ≠ [].
Proof.
  unfold pending. destruct cur as [r|]; [|done]. destruct data; [done|].
  destruct (PyStr.nonempty r) eqn:E; [|done]. by intros [= ->].
Qed.

(** An invariant [J] of the handler survives the processing of a file when
    it survives the two updates the loop makes: storing the k-mers of a
    record under a name [okname] holds for, and recording the accession of
    such a name. *)
Section Preservation.
Variable J : BloomFilterHandler B → Prop.
Variable okname : string → Prop.
Hypothesis J_added : ∀ h kmers ref h',
  okname ref → J h → added h kmers ref h' → J h'.
Hypothesis J_gca : ∀ h name g,
  okname name → J h →
  J (with_reference_gca_map h (<[name := g]> (reference_gca_map h))).

Lemma headers_ok_cons raw lines :
  headers_ok okname (raw :: lines) → headers_ok okname lines.
Proof.
  intros Hh r name w Hin. apply Hh. apply elem_of_cons. by right.
Qed.

Lemma _process_file_kmers_preserves h f :
  headers_ok okname f.2 → is_Some (bloom h) → J h →
  ∃ n h', _process_file_kmers h f = Ok (n, h')
    ∧ J h' ∧ is_Some (bloom h') ∧ kmer_size h' = kmer_size h.
Proof.
  intros Hh Hb HJ. unfold _process_file_kmers.
  set (gca := _extract_gca_from_filename f.1).
  pose (I := λ (rest : list string) (st : scan),
          headers_ok okname rest
          ∧ J st.2 ∧ is_Some (bloom st.2) ∧ kmer_size st.2 = kmer_size h
          ∧ ∀ r, st.1.1.2 = Some r → okname r).
  destruct (for_each_inv (process_line gca) I) with (l := f.2) (s := ((0, None, [], h) : scan))
    as ([[[c cur] data] h1] & E & _ & HJ1 & Hb1 & Hk1 & Hn1).
  - clear Hh Hb HJ. intros raw rest [[[c cur] data] hh] (Hh & HJ & Hb & Hk & Hn).
    simpl in HJ, Hb, Hk, Hn.
    destruct (PyStr.startswith ">" (PyStr.strip raw)) eqn:Hs.
    + destruct (process_line_header gca c cur data hh raw Hs Hb)
        as (name & En & [[Hp E]|(ref & h1 & Hp & Ha & E)]).
      * eexists. split; [exact E|]. unfold I. simpl. split_and!; try done.
        -- by eapply headers_ok_cons.
        -- apply J_gca; [|done]. eapply Hh; [|done..]. apply elem_of_cons. by left.
        -- intros r [= <-]. eapply Hh; [|done..]. apply elem_of_cons. by left.
      * apply pending_Some in Hp as (-> & _ & _).
        assert (okname name) as Hname.
        { eapply Hh; [|done..]. apply elem_of_cons. by left. }
        eexists. split; [exact E|]. unfold I. simpl. split_and!.
        -- by eapply headers_ok_cons.
        -- apply J_gca; [done|]. eapply J_added; [|done..]. by apply Hn.
        -- by eapply added_bloom.
        -- destruct Ha as (-> & _). done.
        -- by intros r [= <-].
    + rewrite process_line_body by done. eexists. split; [done|].
      unfold I. simpl. split_and!; try done. by eapply headers_ok_cons.
  - unfold I. simpl. by split_and!.
  - rewrite E. simpl in *.
    destruct (pending cur data) as [ref|] eqn:Hp.
    + destruct (_add_kmers_to_bloom_spec h1 (PyStr.join data) ref Hb1)
        as (h2 & E2 & Ha).
      rewrite E2. simpl. eexists _, _. split; [done|].
      apply pending_Some in Hp as (-> & _ & _). split_and!.
      * eapply J_added; [|done..]. by apply Hn1.
      * by eapply added_bloom.
      * destruct Ha as (-> & _). done.
    + eexists _, _. by split_and!.
Qed.

Lemma ingest_file_accepted c h f :
  PyStr.endswith_any ingested_extensions f.1 = true →
  ingest_file (c, h) f =
    _process_file_kmers h f ≫= λ '(n, h'), Ok (c + n, h').
Proof. unfold ingest_file. by intros ->. Qed.

Lemma ingest_file_skipped c h f :
  PyStr.endswith_any ingested_extensions f.1 = false →
  ingest_file (c, h) f = Ok (c, h).
Proof. unfold ingest_file. by intros ->. Qed.

Lemma ingest_preserves (db : list file) : ∀ c h,
  (∀ f, f ∈ db → PyStr.endswith_any ingested_extensions f.1 = true →
        headers_ok okname f.2) →
  is_Some (bloom h) → J h →
  ∃ n h', for_each ingest_file db (c, h) = Ok (n, h')
    ∧ J h' ∧ is_Some (bloom h') ∧ kmer_size h' = kmer_size h.
Proof.
  induction db as [|f db IH]; intros c h Hdb Hb HJ.
  - eexists _, _. by split_and!.
  - rewrite for_each_cons.
    destruct (PyStr.endswith_any ingested_extensions f.1) eqn:Hext.
    + rewrite ingest_file_accepted by done.
      destruct (_process_file_kmers_preserves h f) as (n & h1 & E & HJ1 & Hb1 & Hk1);
        [apply Hdb; [apply elem_of_cons; by left | done] | done..|].
      rewrite E. simpl.
      destruct (IH (c + n) h1) as (n' & h' & E' & HJ' & Hb' & Hk'); [|done..|].
      { intros f' Hin. apply Hdb. apply elem_of_cons. by right. }
      eexists _, _. split; [exact E'|]. split_and!; try done. congruence.
    + rewrite ingest_file_skipped by done. apply IH; try done.
      intros f' Hin. apply Hdb. apply elem_of_cons. by right.
Qed.

Lemma load_database_preserves h0 (db : list file) num_threads h :
  (∀ f, f ∈ db → PyStr.endswith_any ingested_extensions f.1 = true →
        headers_ok okname f.2) →
  (∀ capacity, J (with_bloom h0 (Some (bf_new capacity)))) →
  load_database_multithreaded h0 db num_threads = Ok h →
  J h ∧ is_Some (bloom h) ∧ kmer_size h = kmer_size h0.
Proof.
  intros Hdb HJ. unfold load_database_multithreaded, _initialize_bloom_filter.
  destruct (0 <? _estimate_total_kmers_in_db h0 db); [|done].
  set (cap := _estimate_total_kmers_in_db h0 db * factor h0).
  destruct (0 <? cap); [|done]. simpl.
  destruct (0 <? num_threads)%Z; [|done].
  destruct (ingest_preserves db 0 (with_bloom h0 (Some (bf_new cap))))
    as (n & h' & E & HJ' & Hb' & Hk'); [done | by eexists | apply HJ |].
  rewrite E. simpl. intros [= <-]. done.
Qed.

End Preservation.

Lemma load_database_total h0 (db : list file) num_threads :
  0 < _estimate_total_kmers_in_db h0 db → 0 < factor h0 →
  (0 < num_threads)%Z →
  ∃ h, load_database_multithreaded h0 db num_threads = Ok h.
Proof.
  intros Hpos Hf Ht. unfold load_database_multithreaded, _initialize_bloom_filter.
  assert (0 < _estimate_total_kmers_in_db h0 db * factor h0) as Hcap by nia.
  apply Nat.ltb_lt in Hpos, Hcap. apply Z.ltb_lt in Ht. rewrite Hpos, Hcap.
  simpl. rewrite Ht.
  set (cap := _estimate_total_kmers_in_db h0 db * factor h0).
  destruct (ingest_preserves (λ _, True) (λ _, True)) with
    (db := db) (c := 0) (h := with_bloom h0 (Some (bf_new cap)))
    as (n & h' & E & _); try done.
  rewrite E. by eexists.
Qed.

End Build.

(** ** The built index and the rows of a query file *)

Section Index.
Context {B : Type} `{MB : Membership B}.
Implicit Types h : BloomFilterHandler B.

Lemma inserted_index_added h kmers ref h' :
  (∃ capacity inserted, inserted_index capacity inserted h) →
  added h kmers ref h' →
  ∃ capacity inserted, inserted_index capacity inserted h'.
Proof.
  intros (cap & ins & Hb & Hd) (_ & _ & Hb' & Hm & _).
  exists cap, (ins ++ kmers). split.
  - rewrite Hb', Hb. simpl. by rewrite add_all_app.
  - intros x [refs Hx]%elem_of_dom. rewrite Hm in Hx. rewrite elem_of_app.
    case_decide; [by right|]. left. apply Hd, elem_of_dom. by eexists.
Qed.

(** Right after the build, the filter holds the k-mers that were added to
    it, and every key of the reverse index is one of them. *)
Lemma build_inserted k (db : list file) h :
  build k db = Ok h →
  ∃ capacity inserted, inserted_index capacity inserted h.
Proof.
  intros Hbuild.
  eapply (load_database_preserves
            (λ h, ∃ capacity inserted, inserted_index capacity inserted h)
            (λ _, True)) in Hbuild as (HJ & _); [done|..].
  - intros h1 kmers ref h2 _ HJ Ha. by eapply inserted_index_added.
  - intros h1 name g _ HJ. exact HJ.
  - done.
  - intros cap. exists cap, []. split; [done|]. intros x.
    simpl. rewrite dom_empty_L. set_solver.
Qed.

Lemma inserted_index_probe capacity inserted h kmer :
  no_false_negatives B → inserted_index capacity inserted h →
  kmer ∈ dom (kmer_to_reference h) → probe h kmer = true.
Proof.
  intros Hnfn [Hb Hd] Hin. unfold probe. rewrite Hb.
  apply add_all_contains; [done|]. by apply Hd.
Qed.

Lemma refs_of_dom h kmer ref :
  ref ∈ refs_of h kmer → kmer ∈ dom (kmer_to_reference h).
Proof.
  unfold refs_of. intros Hin. apply elem_of_dom.
  destruct (kmer_to_reference h !! kmer); [by eexists | set_solver].
Qed.

(** When every key of the reverse index probes as present, the k-mers that
    hit a reference are those the query shares with it. *)
Lemma matched_set_inter h (Q : gset string) ref :
  (∀ kmer, kmer ∈ dom (kmer_to_reference h) → probe h kmer = true) →
  matched_set h Q ref = Q ∩ kmers_for h ref.
Proof.
  intros Hp. apply set_eq. intros x. unfold matched_set.
  rewrite elem_of_filter, elem_of_intersection, elem_of_kmers_for.
  split; [naive_solver|]. intros [HQ Hr]. split_and!; try done.
  apply Hp. by eapply refs_of_dom.
Qed.

Lemma matched_set_subseteq h (Q : gset string) ref :
  matched_set h Q ref ⊆ Q ∩ kmers_for h ref.
Proof.
  intros x. unfold matched_set.
  rewrite elem_of_filter, elem_of_intersection, elem_of_kmers_for. naive_solver.
Qed.

(** The rows of one query. *)
Lemma _match_sequence_rows h name data rows h' :
  _match_sequence h name data = Ok (rows, h') →
  ∀ row, row ∈ rows ↔
    ∃ ref, matched_set h (query_kmers h data) ref ≠ ∅
      ∧ row = score h name (query_kmers h data)
                (ref, matched_set h (query_kmers h data) ref).
Proof.
  intros E row. apply _match_sequence_spec in E as (m & -> & L & _).
  change (map ?f ?l) with (f <$> l). rewrite list_elem_of_fmap. split.
  - intros ([ref M] & -> & Hin%elem_of_map_to_list). rewrite L in Hin.
    case_decide; [done|]. injection Hin as <-. by exists ref.
  - intros (ref & Hne & ->). eexists (ref, _). split; [done|].
    apply elem_of_map_to_list. rewrite L. by rewrite decide_False.
Qed.

(** The rows of a query file: those of its records, each scored against
    the index as it was when the file was opened. *)
Lemma match_sequences_rows_from (records : list (string * string)) :
  ∀ rows0 h rows h',
  for_each
    (λ st (record : string * string),
       let '(rows, h) := st in
       '(new_rows, h') ← _match_sequence h record.1 record.2;
       Ok (rows ++ new_rows, h'))
    records (rows0, h) = Ok (rows, h') →
  same_answers h h'
  ∧ ∀ row, row ∈ rows ↔
      row ∈ rows0
      ∨ ∃ name data ref, (name, data) ∈ records
          ∧ matched_set h (query_kmers h data) ref ≠ ∅
          ∧ row = score h name (query_kmers h data)
                    (ref, matched_set h (query_kmers h data) ref).
Proof.
  induction records as [|[name data] records IH]; intros rows0 h rows h'.
  - intros [= <- <-]. split; [apply same_answers_refl|].
    intros row. split; [by left|]. intros [?|(?&?&?&[]%not_elem_of_nil&_)]. done.
  - rewrite for_each_cons. simpl.
    destruct (_match_sequence h name data) as [[rows1 h1]|e] eqn:E1; [|done].
    simpl. intros E.
    pose proof (_match_sequence_rows _ _ _ _ _ E1) as Hrows1.
    apply _match_sequence_spec in E1 as (_ & _ & _ & T%touched_same_answers).
    apply IH in E as [Ha Hrows]. split; [by eapply same_answers_trans|].
    assert (∀ d, query_kmers h1 d = query_kmers h d) as HQ
      by (intros d; by apply query_kmers_alike).
    assert (∀ Q ref, matched_set h1 Q ref = matched_set h Q ref) as HM
      by (intros Q ref; by apply matched_set_alike).
    assert (∀ n Q item, score h1 n Q item = score h n Q item) as HS
      by (intros n Q item; by apply score_alike).
    intros row. split.
    + intros [[Hin|Hin]%elem_of_app|(n & d & ref & Hin & Hne & ->)]%Hrows.
      * by left.
      * apply Hrows1 in Hin as (ref & Hne & ->).
        right. exists name, data, ref. split_and!; [|done..].
        apply elem_of_cons. by left.
      * right. exists n, d, ref. rewrite HQ, HM in Hne. rewrite HQ, HM, HS.
        split_and!; [|done..]. apply elem_of_cons. by right.
    + intros [Hin|(n & d & ref & Hin & Hne & ->)]; apply Hrows.
      * left. apply elem_of_app. by left.
      * apply elem_of_cons in Hin as [[= -> ->]|Hin].
        -- left. apply elem_of_app. right. apply Hrows1. by exists ref.
        -- right. exists n, d, ref. by rewrite HQ, HM, HS.
Qed.

Lemma match_sequences_rows h query_file rows h' :
  match_sequences h query_file = Ok (rows, h') →
  same_answers h h'
  ∧ ∀ row, row ∈ rows ↔
      ∃ name data ref, (name, data) ∈ _read_fasta_file query_file
        ∧ matched_set h (query_kmers h data) ref ≠ ∅
        ∧ row = score h name (query_kmers h data)
                  (ref, matched_set h (query_kmers h data) ref).
Proof.
  intros [Ha Hrows]%match_sequences_rows_from. split; [done|].
  intros row. rewrite Hrows. split; [|by right].
  intros [[]%not_elem_of_nil|?]. done.
Qed.

Lemma same_outcome_emitted (r r' : result (list Row * BloomFilterHandler B)) :
  same_outcome r r' → emitted r' = emitted r.
Proof.
  destruct r as [[rows h]|e], r' as [[rows' h']|e']; simpl; try done.
  - by intros [-> _].
  - by intros ->.
Qed.

End Index.

(** ** The two membership sets keep their promise *)

Lemma exact_no_false_negatives : no_false_negatives (gset string).
Proof.
  split; simpl.
  - intros x b. apply bool_decide_eq_true. set_solver.
  - intros x y b Hy%bool_decide_eq_true. apply bool_decide_eq_true. set_solver.
Qed.

Lemma setbits_testbit (l : list N) : ∀ (a i : N),
  N.testbit (fold_left N.setbit l a) i = true ↔ i ∈ l ∨ N.testbit a i = true.
Proof.
  induction l as [|j l IH]; intros a i; simpl.
  - rewrite elem_of_nil. tauto.
  - rewrite IH, elem_of_cons. destruct (decide (i = j)) as [->|Hne].
    + rewrite N.setbit_eq. tauto.
    + rewrite N.setbit_neq by done. naive_solver.
Qed.

Lemma bit_filter_no_false_negatives : no_false_negatives bit_filter.
Proof.
  split.
  - intros x b.
    change (forallb (N.testbit (fold_left N.setbit (slots (num_bits b) x) (bits b)))
                    (slots (num_bits b) x) = true).
    apply forallb_forall. intros i Hi.
    apply setbits_testbit. left. by apply list_elem_of_In.
  - intros x y b Hy.
    change (forallb (N.testbit (bits b)) (slots (num_bits b) y) = true) in Hy.
    change (forallb (N.testbit (fold_left N.setbit (slots (num_bits b) x) (bits b)))
                    (slots (num_bits b) y) = true).
    apply forallb_forall. intros i Hi.
    apply setbits_testbit. right.
    by eapply (proj1 (forallb_forall _ _) Hy).
Qed.

(** ** Scores, false positives, persistence *)

Section Claims.
Context {B : Type} `{MB : Membership B}.
Implicit Types h : BloomFilterHandler B.

Lemma score_fields h name (Q : gset string) ref (M : gset string) :
  score h name Q (ref, M) =
    {| sequence_name := name;
       total_input_kmers := size Q;
       reference := ref;
       matched_kmers := size M;
       reference_total_kmers := default 0 (reference_kmer_count h !! ref);
       gca_name := default "Unknown" (reference_gca_map h !! ref);
       jacc := PyFloat.format_4f
                 (if (0 <? size Q) && (0 <? size (kmers_for h ref))
                  then PyFloat.true_div (size (Q ∩ kmers_for h ref))
                                        (size (Q ∪ kmers_for h ref))
                  else PyFloat.zero);
       qcov := PyFloat.format_4f
                 (if (0 <? size Q) && (0 <? size (kmers_for h ref))
                  then PyFloat.true_div (size (Q ∩ kmers_for h ref))
                                        (size (kmers_for h ref))
                  else PyFloat.zero) |}.
Proof.
  unfold score. fold (kmers_for h ref).
  by destruct ((0 <? size Q) && (0 <? size (kmers_for h ref))).
Qed.

Lemma size_pos_iff (X : gset string) : (0 <? size X) = true ↔ X ≠ ∅.
Proof.
  rewrite Nat.ltb_lt. split.
  - intros Hs ->. rewrite size_empty in Hs. lia.
  - intros Hne. destruct (size X) eqn:E; [|lia].
    apply size_empty_iff, leibniz_equiv in E. done.
Qed.

(** A row stands for a reference that some k-mer of the query hits, so
    neither the query set nor the reference set is empty. *)
Lemma hit_nonempty h (Q : gset string) ref :
  matched_set h Q ref ≠ ∅ →
  1 ≤ size (matched_set h Q ref) ∧ Q ≠ ∅ ∧ kmers_for h ref ≠ ∅.
Proof.
  intros Hne. pose proof (matched_set_subseteq h Q ref) as Hsub.
  split_and!.
  - apply size_pos_iff, Nat.ltb_lt in Hne. lia.
  - intros ->. apply Hne. set_solver.
  - intros He. apply Hne. rewrite He in Hsub. set_solver.
Qed.

(** C2. Every row written for a query file belongs to one of its records
    and to a reference that at least one k-mer of the record hit.  With [Q]
    the k-mers of the record and [R] those of the reference, neither set is
    empty, [Jacc] is [|Q ∩ R| / |Q ∪ R|] and [Qcov] is [|Q ∩ R| / |R|],
    each printed with four decimals.  The scoring itself prints zero for
    both when [Q] or [R] is empty. *)
Theorem C2_jaccard_and_coverage h :
  (∀ query_file rows h',
     match_sequences h query_file = Ok (rows, h') →
     ∀ row, row ∈ rows →
       ∃ name data, (name, data) ∈ _read_fasta_file query_file
         ∧ sequence_name row = name
         ∧ let Q := query_kmers h data in
           let R := kmers_for h (reference row) in
           1 ≤ matched_kmers row ∧ Q ≠ ∅ ∧ R ≠ ∅
           ∧ jacc row =
               PyFloat.format_4f (PyFloat.true_div (size (Q ∩ R)) (size (Q ∪ R)))
           ∧ qcov row =
               PyFloat.format_4f (PyFloat.true_div (size (Q ∩ R)) (size R)))
  ∧ (∀ name (Q : gset string) ref (M : gset string),
       Q = ∅ ∨ kmers_for h ref = ∅ →
       jacc (score h name Q (ref, M)) = "0.0000"
       ∧ qcov (score h name Q (ref, M)) = "0.0000").
Proof.
  split.
  - intros query_file rows h' E row Hrow.
    apply match_sequences_rows in E as [_ Hrows].
    apply Hrows in Hrow as (name & data & ref & Hin & Hne & ->).
    exists name, data. rewrite score_fields. simpl.
    destruct (hit_nonempty _ _ _ Hne) as (H1 & HQ & HR).
    split_and!; try done.
    + by rewrite (proj2 (size_pos_iff _) HQ), (proj2 (size_pos_iff _) HR).
    + by rewrite (proj2 (size_pos_iff _) HQ), (proj2 (size_pos_iff _) HR).
  - intros name Q ref M Hempty. rewrite score_fields. simpl.
    assert ((0 <? size Q) && (0 <? size (kmers_for h ref)) = false) as ->; [|done].
    destruct Hempty as [-> | ->]; rewrite size_empty; [done|].
    apply andb_false_r.
Qed.

(** C10. On a built index whose filter has no false negatives, the number
    of matched k-mers of a row is [|Q ∩ R|], the numerator of its [Jacc] and
    of its [Qcov]. *)
Theorem C10_matched_is_intersection k (db : list file) h query_file rows h' :
  no_false_negatives B →
  build k db = Ok h →
  match_sequences h query_file = Ok (rows, h') →
  ∀ row, row ∈ rows →
    ∃ name data, (name, data) ∈ _read_fasta_file query_file
      ∧ sequence_name row = name
      ∧ let Q := query_kmers h data in
        let R := kmers_for h (reference row) in
        matched_kmers row = size (Q ∩ R)
        ∧ jacc row =
            PyFloat.format_4f (PyFloat.true_div (matched_kmers row) (size (Q ∪ R)))
        ∧ qcov row =
            PyFloat.format_4f (PyFloat.true_div (matched_kmers row) (size R)).
Proof.
  intros Hnfn Hbuild E row Hrow.
  destruct (build_inserted k db h Hbuild) as (cap & ins & Hins).
  apply match_sequences_rows in E as [_ Hrows].
  apply Hrows in Hrow as (name & data & ref & Hin & Hne & ->).
  exists name, data. rewrite score_fields. simpl.
  destruct (hit_nonempty _ _ _ Hne) as (_ & HQ & HR).
  rewrite (proj2 (size_pos_iff _) HQ), (proj2 (size_pos_iff _) HR). simpl.
  rewrite matched_set_inter; [done|].
  intros kmer. by eapply inserted_index_probe.
Qed.

(** C4. Let two filters answer alike on the keys of the reverse index and
    in any way elsewhere: the rows written for a query file are the same.
    And a k-mer among the matched k-mers of a reference is a key of the
    reverse index. *)
Theorem C4_false_positives_are_neutral h b b' :
  bloom h = Some b →
  (∀ kmer, kmer ∈ dom (kmer_to_reference h) →
           bf_contains kmer b' = bf_contains kmer b) →
  (∀ query_file,
     emitted (match_sequences (with_bloom h (Some b')) query_file)
       = emitted (match_sequences h query_file))
  ∧ (∀ sequence_data h1 reference_kmer_matches ref matched_kmers kmer,
       for_each match_kmer (elements (query_kmers h sequence_data)) (h, ∅)
         = Ok (h1, reference_kmer_matches) →
       reference_kmer_matches !! ref = Some matched_kmers →
       kmer ∈ matched_kmers →
       kmer ∈ dom (kmer_to_reference h)).
Proof.
  intros Hb Hagree. split.
  - intros query_file. apply same_outcome_emitted, match_sequences_alike.
    unfold same_answers. simpl. split_and!; try done.
    + by rewrite Hb.
    + intros kmer Hne. unfold probe. simpl. rewrite Hb. apply Hagree.
      unfold refs_of in Hne. apply elem_of_dom.
      destruct (kmer_to_reference h !! kmer); [by eexists | done].
  - intros data h1 m ref M kmer E Hl Hin.
    rewrite (matches_lookup _ _ _ _ E) in Hl. case_decide; [done|].
    injection Hl as <-. apply matched_set_subseteq in Hin.
    apply elem_of_intersection in Hin as [_ Hin].
    apply elem_of_kmers_for in Hin. by eapply refs_of_dom.
Qed.

(** The five saved attributes come back as they were. *)
Lemma load_after_save h directory (disk : gmap string (Pickled B)) h0 :
  load_bloom_filter h0 (PyStr.path_join directory "bloom_filter.pkl")
    (save_bloom_filter h directory disk)
  = Ok {| kmer_size := kmer_size h0; factor := factor h0; bloom := bloom h;
          kmer_to_reference := kmer_to_reference h;
          reference_kmer_count := reference_kmer_count h;
          reference_gca_map := reference_gca_map h;
          reference_sequences := reference_sequences h |}.
Proof.
  unfold load_bloom_filter, save_bloom_filter. by rewrite lookup_insert_eq.
Qed.



End Claims.

(** ** The worked example *)

Section ExampleFacts.
Context {B : Type} `{MB : Membership B}.

Lemma example_build : build 3 example_db = Ok (example_index (B:=B)).
Proof. vm_compute. reflexivity. Qed.

Lemma example_records :
  _read_fasta_file example_query = [("query1", "ACGTACGT")].
Proof. vm_compute. reflexivity. Qed.

Lemma example_query_kmers :
  query_kmers (example_index (B:=B)) "ACGTACGT" = {["ACG"; "CGT"; "GTA"; "TAC"]}.
Proof. vm_compute. reflexivity. Qed.

Lemma example_kmers_for_ref1 :
  kmers_for (example_index (B:=B)) "ref1" = {["ACG"; "CGT"; "GTA"; "TAC"]}.
Proof. vm_compute. reflexivity. Qed.

Lemma example_refs_of (kmer : string) :
  refs_of (example_index (B:=B)) kmer = ∅
  ∨ refs_of (example_index (B:=B)) kmer = {["ref1"]}.
Proof.
  unfold refs_of, example_index. simpl.
  rewrite !lookup_insert, lookup_singleton. repeat case_decide; simpl; auto.
Qed.

Lemma example_kmers_for_other (ref : string) :
  ref ≠ "ref1" → kmers_for (example_index (B:=B)) ref = ∅.
Proof.
  intros Hne. apply set_eq. intros x. rewrite elem_of_kmers_for.
  destruct (example_refs_of x) as [-> | ->]; set_solver.
Qed.

Lemma example_inserted :
  inserted_index 24 ["ACG"; "CGT"; "GTA"; "TAC"; "ACG"; "CGT"]
    (example_index (B:=B)).
Proof.
  split; [done|]. intros kmer Hin.
  assert (kmer ∈ ({["ACG"; "CGT"; "GTA"; "TAC"]} : gset string)) as Hk.
  { revert Hin. unfold example_index. simpl. rewrite !dom_insert_L. set_solver. }
  set_solver.
Qed.

(** C6. With [k = 3], the reference [ref1] with body [ACGTACGT] gives the
    raw count 6 and the four k-mers [ACG], [CGT], [GTA], [TAC]; whatever
    filter without false negatives is used, the query [ACGTACGT] gets one
    row, for [ref1]: 4 input k-mers, 4 matched, 6 reference k-mers, [Jacc]
    and [Qcov] both [1.0000]. *)
Theorem C6_worked_example :
  no_false_negatives B →
  build 3 example_db = Ok (example_index (B:=B))
  ∧ reference_kmer_count (example_index (B:=B)) !! "ref1" = Some 6
  ∧ kmers_for (example_index (B:=B)) "ref1" = {["ACG"; "CGT"; "GTA"; "TAC"]}
  ∧ size (kmers_for (example_index (B:=B)) "ref1") = 4
  ∧ emitted (match_sequences (example_index (B:=B)) example_query)
      = Ok [example_row].
Proof.
  intros Hnfn. split_and!.
  - apply example_build.
  - done.
  - apply example_kmers_for_ref1.
  - rewrite example_kmers_for_ref1. vm_compute. reflexivity.
  - unfold match_sequences. rewrite example_records, for_each_cons.
    destruct (_match_sequence_total (example_index (B:=B)) "query1" "ACGTACGT")
      as (rows & h' & E); [by eexists|].
    change ((("query1", "ACGTACGT") : string * string).1) with "query1".
    change ((("query1", "ACGTACGT") : string * string).2) with "ACGTACGT".
    rewrite E. simpl.
    apply _match_sequence_spec in E as (m & -> & L & _).
    rewrite example_query_kmers in *.
    assert (m = {["ref1" := {["ACG"; "CGT"; "GTA"; "TAC"]}]}) as ->.
    { apply map_eq. intros ref. rewrite L.
      rewrite matched_set_inter
        by (intros kmer; by eapply inserted_index_probe, example_inserted).
      destruct (decide (ref = "ref1")) as [->|Hne].
      - rewrite example_kmers_for_ref1, lookup_singleton_eq.
        rewrite decide_False; [f_equal; set_solver|].
        intros He. assert ("ACG" ∈@{gset string} ∅) as []%not_elem_of_empty.
        rewrite <- He. set_solver.
      - rewrite example_kmers_for_other, lookup_singleton_ne by done.
        rewrite decide_True; [done | set_solver]. }
    rewrite map_to_list_singleton. vm_compute. reflexivity.
Qed.

End ExampleFacts.

(** C6 with the ideal membership set. *)
Lemma C6_worked_example_witness :
  emitted (match_sequences (example_index (B:=gset string)) example_query)
    = Ok [example_row].
Proof.
  apply (C6_worked_example (B:=gset string)). apply exact_no_false_negatives.
Defined.

(** ** What matching leaves of the loaded index *)

Section Frame.
Context {B : Type} `{MB : Membership B}.
Implicit Types h : BloomFilterHandler B.

Lemma touched_app l1 l2 h h1 h2 :
  touched l1 h h1 → touched l2 h1 h2 → touched (l1 ++ l2) h h2.
Proof.
  intros H1 H2. pose proof (λ x, touched_probe _ _ _ x H1) as Hp.
  destruct H1 as (Hk1 & Hf1 & Hb1 & Hc1 & Hg1 & Hs1 & Hm1).
  destruct H2 as (Hk2 & Hf2 & Hb2 & Hc2 & Hg2 & Hs2 & Hm2).
  repeat split; try congruence.
  intros x. rewrite Hm2, Hm1. specialize (Hp x).
  destruct (kmer_to_reference h !! x); [done|].
  destruct (decide (x ∈ l1 ∧ probe h x = true)) as [[Hx Hpx]|Hn].
  - rewrite decide_True; [done|]. split; [|done]. apply elem_of_app. by left.
  - destruct (decide (x ∈ l2 ∧ probe h1 x = true)) as [[Hx Hpx]|Hn'].
    + rewrite decide_True; [done|]. split; [|congruence].
      apply elem_of_app. by right.
    + rewrite decide_False; [done|]. intros [[Hx|Hx]%elem_of_app Hpx].
      * by apply Hn.
      * apply Hn'. split; [done|congruence].
Qed.

(** Matching a query file leaves every attribute of the handler as it was,
    except that the reverse index has got an empty entry for each k-mer
    that a query contained, the filter reported and the index did not
    have. *)
Lemma match_sequences_touched_from (records : list (string * string)) :
  ∀ rows0 h rows h',
  for_each
    (λ st (record : string * string),
       let '(rows, h) := st in
       '(new_rows, h') ← _match_sequence h record.1 record.2;
       Ok (rows ++ new_rows, h'))
    records (rows0, h) = Ok (rows, h') →
  ∃ l, touched l h h'.
Proof.
  induction records as [|[name data] records IH]; intros rows0 h rows h'.
  - intros [= <- <-]. exists []. apply touched_refl.
  - rewrite for_each_cons. simpl.
    destruct (_match_sequence h name data) as [[rows1 h1]|e] eqn:E1; [|done].
    simpl. intros E.
    apply _match_sequence_spec in E1 as (_ & _ & _ & T).
    apply IH in E as [l T']. eexists. by eapply touched_app.
Qed.

Lemma match_sequences_touched h query_file rows h' :
  match_sequences h query_file = Ok (rows, h') → ∃ l, touched l h h'.
Proof. apply match_sequences_touched_from. Qed.

(** When the filter reports no k-mer that the reverse index does not have,
    matching leaves the handler as it was. *)
Lemma match_sequences_unchanged h query_file rows h' :
  (∀ kmer, probe h kmer = true → kmer ∈ dom (kmer_to_reference h)) →
  match_sequences h query_file = Ok (rows, h') → h' = h.
Proof.
  intros Hexact [l (Hk & Hf & Hb & Hc & Hg & Hs & Hm)]%match_sequences_touched.
  assert (kmer_to_reference h' = kmer_to_reference h) as Hr.
  { apply map_eq. intros x. rewrite Hm.
    destruct (kmer_to_reference h !! x) eqn:Hx; [done|].
    rewrite decide_False; [done|]. intros [_ Hp].
    apply Hexact, elem_of_dom in Hp as [? Hp]. congruence. }
  destruct h, h'. simpl in *. by subst.
Qed.

End Frame.

(** ** The claims on the example *)

(** The example run with the ideal membership set. *)
Lemma example_run :
  match_sequences (example_index (B:=gset string)) example_query
    = Ok ([example_row], example_index).
Proof. vm_compute. reflexivity. Qed.

(** C2 on the example. *)
Lemma C2_jaccard_and_coverage_witness :
  ∃ name data, (name, data) ∈ _read_fasta_file example_query
    ∧ sequence_name example_row = name
    ∧ let Q := query_kmers (example_index (B:=gset string)) data in
      let R := kmers_for (example_index (B:=gset string)) (reference example_row) in
      1 ≤ matched_kmers example_row ∧ Q ≠ ∅ ∧ R ≠ ∅
      ∧ jacc example_row =
          PyFloat.format_4f (PyFloat.true_div (size (Q ∩ R)) (size (Q ∪ R)))
      ∧ qcov example_row =
          PyFloat.format_4f (PyFloat.true_div (size (Q ∩ R)) (size R)).
Proof.
  apply (proj1 (C2_jaccard_and_coverage (example_index (B:=gset string)))
           example_query [example_row] example_index).
  - vm_compute. reflexivity.
  - apply list_elem_of_singleton. reflexivity.
Defined.

(** C10 on the example. *)
Lemma C10_matched_is_intersection_witness :
  ∃ name data, (name, data) ∈ _read_fasta_file example_query
    ∧ sequence_name example_row = name
    ∧ let Q := query_kmers (example_index (B:=gset string)) data in
      let R := kmers_for (example_index (B:=gset string)) (reference example_row) in
      matched_kmers example_row = size (Q ∩ R)
      ∧ jacc example_row =
          PyFloat.format_4f
            (PyFloat.true_div (matched_kmers example_row) (size (Q ∪ R)))
      ∧ qcov example_row =
          PyFloat.format_4f (PyFloat.true_div (matched_kmers example_row) (size R)).
Proof.
  apply (C10_matched_is_intersection (B:=gset string) 3 example_db example_index
           example_query [example_row] example_index).
  - apply exact_no_false_negatives.
  - vm_compute. reflexivity.
  - vm_compute. reflexivity.
  - apply list_elem_of_singleton. reflexivity.
Defined.

(** C4 on the example: the k-mer [TTT] is added to the Bloom filter of the
    example, and a query that contains it gets the rows it got before. *)
Lemma C4_false_positives_are_neutral_witness :
  let b := add_all ["ACG"; "CGT"; "GTA"; "TAC"; "ACG"; "CGT"]
                   (bf_new (B:=bit_filter) 24) in
  bf_contains "TTT" b = false
  ∧ bf_contains "TTT" (bf_add "TTT" b) = true
  ∧ emitted (match_sequences
               (with_bloom (example_index (B:=bit_filter))
                  (Some (bf_add "TTT" b))) [">q"; "ACGTTT"])
    = emitted (match_sequences (example_index (B:=bit_filter)) [">q"; "ACGTTT"]).
Proof.
  intros b. split; [vm_compute; reflexivity|]. split; [vm_compute; reflexivity|].
  apply (C4_false_positives_are_neutral (example_index (B:=bit_filter)) b
           (bf_add "TTT" b)).
  - reflexivity.
  - intros kmer Hin.
    assert (kmer ∈ ({["ACG"; "CGT"; "GTA"; "TAC"]} : gset string)) as Hk.
    { revert Hin. unfold example_index. simpl.
      rewrite !dom_insert_L, dom_singleton_L. set_solver. }
    rewrite !elem_of_union, !elem_of_singleton in Hk.
    destruct Hk as [[[-> | ->] | ->] | ->]; vm_compute; reflexivity.
Defined.



(** C5 at a false positive.  The Bloom filter of the example answers yes
    for [AAA], which was never added.  Matching the query [AAA] writes no
    row, and the lookup [kmer_to_reference[kmer]] on the [defaultdict]
    leaves a new key in the reverse index of the loaded handler. *)
Theorem C5_lookup_adds_a_key :
  let h := example_index (B:=bit_filter) in
  probe h "AAA" = true
  ∧ kmer_to_reference h !! "AAA" = None
  ∧ ∃ h', match_sequences h stray_query = Ok ([], h')
      ∧ kmer_to_reference h' = <["AAA" := ∅]> (kmer_to_reference h)
      ∧ dom (kmer_to_reference h') = {["AAA"]} ∪ dom (kmer_to_reference h)
      ∧ h' ≠ h.
Proof.
  intros h. split; [vm_compute; reflexivity|]. split; [vm_compute; reflexivity|].
  exists (with_kmer_to_reference h (<["AAA" := ∅]> (kmer_to_reference h))).
  split; [vm_compute; reflexivity|]. split; [reflexivity|].
  split; [simpl; by rewrite dom_insert_L|].
  intros Heq. apply (f_equal (λ x, kmer_to_reference x !! "AAA")) in Heq.
  vm_compute in Heq. discriminate.
Qed.

(** C8 at the same false positive.  The build of the example added six
    k-mers to the filter, and the keys of the reverse index are among them.
    After the query [AAA] the filter is the same, and [AAA], which is not
    one of the six, is a key of the reverse index. *)
Theorem C8_key_that_was_never_inserted :
  let h := example_index (B:=bit_filter) in
  let inserted := ["ACG"; "CGT"; "GTA"; "TAC"; "ACG"; "CGT"] in
  build 3 example_db = Ok h
  ∧ inserted_index 24 inserted h
  ∧ ∃ h', match_sequences h stray_query = Ok ([], h')
      ∧ bloom h' = Some (add_all inserted (bf_new 24))
      ∧ "AAA" ∈ dom (kmer_to_reference h')
      ∧ "AAA" ∉ inserted.
Proof.
  intros h inserted. split; [vm_compute; reflexivity|].
  split; [apply example_inserted|].
  exists (with_kmer_to_reference h (<["AAA" := ∅]> (kmer_to_reference h))).
  split; [vm_compute; reflexivity|]. split; [reflexivity|]. split.
  - simpl. rewrite dom_insert_L. set_solver.
  - unfold inserted. rewrite !elem_of_cons, elem_of_nil. naive_solver.
Qed.

(** ** Headers without the marker *)

Section Headers.
Context {B : Type} `{MB : Membership B}.
Implicit Types h : BloomFilterHandler B.





End Headers.



(** ** The capacity estimate and the k-mers ingested *)

Section Estimate.
Context {B : Type} `{MB : Membership B}.
Implicit Types h : BloomFilterHandler B.

Lemma count_kmer_size h h' s :
  kmer_size h' = kmer_size h →
  _count_kmers_in_sequence h' s = _count_kmers_in_sequence h s.
Proof. unfold _count_kmers_in_sequence. by intros ->. Qed.

Lemma count_empty h : 1 ≤ kmer_size h → _count_kmers_in_sequence h "" = 0.
Proof.
  intros Hk. unfold _count_kmers_in_sequence. simpl.
  destruct (Nat.leb_spec (kmer_size h) 0); [lia | done].
Qed.


Lemma pending_None cur data :
  pending cur data = None →
  cur = None ∨ data = [] ∨ ∃ r, cur = Some r ∧ PyStr.nonempty r = false.
Proof.
  unfold pending. destruct cur as [r|]; [|by left]. destruct data; [by right; left|].
  destruct (PyStr.nonempty r) eqn:E; [done|]. right; right. by exists r.
Qed.

Lemma startswith_nonempty line :
  PyStr.startswith ">" line = true → PyStr.nonempty line = true.
Proof. by intros [rest ->]%startswith_marker. Qed.

Lemma estimate_line_header h c s raw :
  PyStr.startswith ">" (PyStr.strip raw) = true →
  estimate_line h (c, s) raw = (c + _count_kmers_in_sequence h s, "").
Proof.
  intros Hs. unfold estimate_line.
  by rewrite (startswith_nonempty _ Hs), Hs.
Qed.

Lemma estimate_line_body h c s raw :
  PyStr.startswith ">" (PyStr.strip raw) = false →
  estimate_line h (c, s) raw = (c, s +:+ PyStr.strip raw).
Proof.
  intros Hs. unfold estimate_line. rewrite Hs.
  destruct (PyStr.strip raw); [by rewrite append_empty_r | done].
Qed.

Lemma well_formed_header seen raw rest :
  PyStr.startswith ">" (PyStr.strip raw) = true →
  well_formed_lines seen (raw :: rest) = true →
  (∃ name w, _extract_reference_name (PyStr.strip raw) = Ok (name, w)
             ∧ PyStr.nonempty name = true)
  ∧ well_formed_lines true rest = true.
Proof.
  intros Hs. simpl. rewrite Hs. intros [Hn Hr]%andb_true_iff. split; [|done].
  destruct (_extract_reference_name (PyStr.strip raw)) as [[name w]|]; [|done].
  by exists name, w.
Qed.

Lemma well_formed_body seen raw rest :
  PyStr.startswith ">" (PyStr.strip raw) = false →
  well_formed_lines seen (raw :: rest) = true →
  (seen = true ∨ PyStr.strip raw = "")
  ∧ well_formed_lines seen rest = true.
Proof.
  intros Hs. simpl. rewrite Hs. intros [Hn Hr]%andb_true_iff. split; [|done].
  apply orb_true_iff in Hn as [Hn|Hn]; [by left|]. right.
  by destruct (PyStr.strip raw).
Qed.

(** On a well-formed file the reader stores as many k-mers as the
    estimator counts. *)
Lemma _process_file_kmers_estimate h0 h f :
  1 ≤ kmer_size h0 → kmer_size h = kmer_size h0 → is_Some (bloom h) →
  well_formed f = true →
  ∃ h', _process_file_kmers h f = Ok (estimate_kmers h0 f, h')
    ∧ is_Some (bloom h') ∧ kmer_size h' = kmer_size h0.
Proof.
  intros Hk1 Hk Hb Hwf. unfold _process_file_kmers, estimate_kmers.
  set (gca := _extract_gca_from_filename f.1).
  pose (I := λ (rest : list string) (st : scan (B:=B)),
          ∃ seen est,
            well_formed_lines seen rest = true
            ∧ fold_left (estimate_line h0) rest est
                = fold_left (estimate_line h0) f.2 (0, "")
            ∧ in_step h0 seen est st).
  destruct (for_each_inv (process_line gca) I) with
    (l := f.2) (s := ((0, None, [], h) : scan))
    as ([[[c cur] data] h1] & E & seen & [ce s] & _ & Hest & Hb1 & Hk1' & Hj & Hc & Hcur).
  - clear Hb Hk Hwf.
    intros raw rest [[[c cur] data] hh] (seen & [ce s] & Hwf & Hest & Hb & Hk & Hj & Hc & Hcur).
    simpl in Hj, Hc. cbn [fold_left] in Hest.
    destruct (PyStr.startswith ">" (PyStr.strip raw)) eqn:Hs.
    + destruct (well_formed_header _ _ _ Hs Hwf) as ((name' & w & En' & Hname) & Hwf').
      rewrite estimate_line_header in Hest by done.
      destruct (process_line_header gca c cur data hh raw Hs Hb)
        as (name & En & [[Hp E]|(ref & h1 & Hp & Ha & E)]).
      * rewrite En in En'. injection En' as <- <-.
        eexists. split; [exact E|].
        exists true, (ce + _count_kmers_in_sequence h0 s, ""). split_and!; try done.
        assert (s = "" ∧ _count_kmers_in_sequence h0 s = 0) as [-> Hz].
        { apply pending_None in Hp as [-> | [-> | (r & -> & Hr)]].
          - destruct Hcur as [_ [= _ ->]]. split; [done | by apply count_empty].
          - simpl in Hj. subst s. split; [done | by apply count_empty].
          - destruct Hcur as [_ Hr']. congruence. }
        unfold in_step. simpl. split_and!; try done. lia.
      * rewrite En in En'. injection En' as <- <-.
        eexists. split; [exact E|].
        exists true, (ce + _count_kmers_in_sequence h0 s, "").
        split_and!; try done.
        unfold in_step. simpl. split_and!; try done.
        -- by eapply added_bloom.
        -- destruct Ha as (-> & _). done.
        -- rewrite extract_kmers_count, Hj, Hc.
           by rewrite (count_kmer_size h0 hh).
    + destruct (well_formed_body _ _ _ Hs Hwf) as (Hseen & Hwf').
      rewrite estimate_line_body in Hest by done.
      rewrite process_line_body by done.
      eexists. split; [done|].
      exists seen, (ce, s +:+ PyStr.strip raw). split_and!; try done.
      unfold in_step. simpl. split_and!; try done.
      * by rewrite join_snoc, Hj.
      * destruct cur as [r|]; [done|]. destruct Hcur as [-> [= -> ->]].
        destruct Hseen as [Hx | ->]; done.
  - exists false, (0, ""). unfold in_step. simpl. by split_and!.
  - rewrite E. simpl in Hj, Hc. cbn [fold_left] in Hest. rewrite <- Hest. simpl.
    destruct (pending cur data) as [ref|] eqn:Hp.
    + destruct (_add_kmers_to_bloom_spec h1 (PyStr.join data) ref Hb1)
        as (h2 & E2 & Ha).
      rewrite E2. simpl. exists h2. split_and!.
      * rewrite extract_kmers_count, Hj, Hc.
        by rewrite (count_kmer_size h0 h1).
      * by eapply added_bloom.
      * destruct Ha as (-> & _). done.
    + exists h1. split_and!; try done.
      assert (_count_kmers_in_sequence h0 s = 0) as ->.
      { apply pending_None in Hp as [-> | [-> | (r & -> & Hr)]].
        - destruct Hcur as [_ [= _ ->]]. by apply count_empty.
        - simpl in Hj. subst s. by apply count_empty.
        - destruct Hcur as [_ Hr']. congruence. }
      by rewrite Hc, Nat.add_0_r.
Qed.

Lemma estimate_total_from h0 (db : list file) (a : nat) :
  fold_left
    (λ total_kmers f,
       if PyStr.endswith_any estimated_extensions f.1
       then total_kmers + estimate_kmers h0 f else total_kmers) db a
  = a + sum_list (estimate_kmers h0 <$>
                  filter (λ f, PyStr.endswith_any estimated_extensions f.1 = true) db).
Proof.
  revert a. induction db as [|f db IH]; intros a.
  { rewrite filter_nil. simpl. by rewrite Nat.add_0_r. }
  cbn [fold_left]. rewrite IH, filter_cons.
  destruct (PyStr.endswith_any estimated_extensions f.1) eqn:E.
  - rewrite decide_True by done. rewrite fmap_cons.
    change (sum_list (estimate_kmers h0 f :: ?l)) with (estimate_kmers h0 f + sum_list l).
    by rewrite Nat.add_assoc.
  - rewrite decide_False by done. done.
Qed.

Lemma _estimate_total_kmers_in_db_sum h0 (db : list file) :
  _estimate_total_kmers_in_db h0 db
  = sum_list (estimate_kmers h0 <$>
              filter (λ f, PyStr.endswith_any estimated_extensions f.1 = true) db).
Proof. unfold _estimate_total_kmers_in_db. by rewrite estimate_total_from. Qed.

Lemma estimated_is_ingested path :
  PyStr.endswith_any estimated_extensions path = true →
  PyStr.endswith_any ingested_extensions path = true.
Proof.
  unfold PyStr.endswith_any, estimated_extensions, ingested_extensions. simpl.
  destruct (PyStr.endswith ".fna" path), (PyStr.endswith ".fna.gz" path); done.
Qed.






End Estimate.



(** * More properties of the code *)

(** ** Matching *)

Section MoreMatching.
Context {B : Type} `{MB : Membership B}.
Implicit Types h : BloomFilterHandler B.

Lemma score_reference h name (Q : gset string) item :
  reference (score h name Q item) = item.1.
Proof. destruct item as [ref M]. by rewrite score_fields. Qed.

(** X1. The rows written for one query name pairwise different
    references: a reference gets at most one row per query. *)
Theorem X1_one_row_per_reference h sequence_name sequence_data rows h' :
  _match_sequence h sequence_name sequence_data = Ok (rows, h') →
  NoDup (reference <$> rows).
Proof.
  intros E. apply _match_sequence_spec in E as (m & -> & _ & _).
  change (map ?f ?l) with (f <$> l).
  assert (∀ l : list (string * gset string),
            reference <$> (score h sequence_name (query_kmers h sequence_data) <$> l)
            = l.*1) as ->.
  { induction l as [|item l IH]; [done|].
    by rewrite !fmap_cons, score_reference, IH. }
  apply NoDup_fst_map_to_list.
Qed.

Lemma query_kmers_empty h data :
  query_kmers h data = ∅ ↔ String.length data < kmer_size h.
Proof.
  unfold query_kmers. rewrite _extract_kmers_eq. split.
  - intros He. destruct (extract_kmers h data) as [|x l] eqn:E.
    + apply (f_equal length) in E. rewrite extract_kmers_length in E.
      simpl in E. lia.
    + exfalso. assert (x ∈@{gset string} ∅) as []%not_elem_of_empty.
      rewrite <- He. set_solver.
  - intros Hlt. assert (extract_kmers h data = []) as ->; [|done].
    apply length_zero_iff_nil. rewrite extract_kmers_length. lia.
Qed.

(** X2. Matching on a handler that has no filter yet (nothing was built
    or loaded): a query with at least [kmer_size] characters raises
    [TypeError], a shorter one writes no row and leaves the handler as it
    is. *)
Theorem X2_matching_without_filter h sequence_name sequence_data :
  bloom h = None →
  _match_sequence h sequence_name sequence_data =
    if decide (String.length sequence_data < kmer_size h) then Ok ([], h)
    else Raise TypeError.
Proof.
  intros Hb. rewrite _match_sequence_no_filter by done.
  destruct (decide (String.length sequence_data < kmer_size h)) as [Hlt|Hge].
  - rewrite decide_True; [done|]. by apply query_kmers_empty.
  - rewrite decide_False; [done|]. by rewrite query_kmers_empty.
Qed.

(** X3. A query file writes no row exactly when no k-mer of its records
    both probes as present and has a reference in the reverse index; so
    records shorter than [kmer_size], and records that share no k-mer with
    the catalog, give an empty result. *)
Theorem X3_no_shared_kmer_no_row h query_file rows h' :
  match_sequences h query_file = Ok (rows, h') →
  (rows = [] ↔
   ∀ name data kmer, (name, data) ∈ _read_fasta_file query_file →
     kmer ∈ query_kmers h data → probe h kmer = true → refs_of h kmer = ∅).
Proof.
  intros E. apply match_sequences_rows in E as [_ Hrows]. split.
  - intros -> name data kmer Hin Hk Hp.
    apply set_eq. intros ref. split; [|set_solver]. intros Href. exfalso.
    assert (matched_set h (query_kmers h data) ref ≠ ∅) as Hne.
    { intros He. assert (kmer ∈ matched_set h (query_kmers h data) ref) as Hm.
      { unfold matched_set. apply elem_of_filter. done. }
      rewrite He in Hm. set_solver. }
    eapply not_elem_of_nil, Hrows. by eexists name, data, ref.
  - intros Hnone. destruct rows as [|row rows]; [done|]. exfalso.
    destruct (proj1 (Hrows row)) as (name & data & ref & Hin & Hne & _).
    { apply elem_of_cons. by left. }
    apply Hne. apply set_eq. intros kmer. split; [|set_solver].
    unfold matched_set. rewrite elem_of_filter. intros [[Hp Href] Hk].
    rewrite (Hnone name data kmer Hin Hk Hp) in Href. set_solver.
Qed.

(** X4. The rows of a query file do not depend on the query files that
    were matched before it in the session. *)
Theorem X4_queries_are_independent h first_file rows1 h1 second_file :
  match_sequences h first_file = Ok (rows1, h1) →
  emitted (match_sequences h1 second_file)
    = emitted (match_sequences h second_file).
Proof.
  intros E. apply match_sequences_rows in E as [Ha _].
  by apply same_outcome_emitted, match_sequences_alike.
Qed.

(** X5. Matching leaves [kmer_size], [factor], the filter, the raw
    counts, the accessions and the stored sequences as they are; it removes
    no key of the reverse index and changes the references of no k-mer; and
    when the filter reports only k-mers that are keys of the reverse index,
    the handler afterwards is the handler before. *)
Theorem X5_what_matching_keeps h query_file rows h' :
  match_sequences h query_file = Ok (rows, h') →
  kmer_size h' = kmer_size h ∧ factor h' = factor h ∧ bloom h' = bloom h
  ∧ reference_kmer_count h' = reference_kmer_count h
  ∧ reference_gca_map h' = reference_gca_map h
  ∧ reference_sequences h' = reference_sequences h
  ∧ dom (kmer_to_reference h) ⊆ dom (kmer_to_reference h')
  ∧ (∀ kmer, refs_of h' kmer = refs_of h kmer)
  ∧ (∀ ref, kmers_for h' ref = kmers_for h ref)
  ∧ ((∀ kmer, probe h kmer = true → kmer ∈ dom (kmer_to_reference h)) →
     h' = h).
Proof.
  intros E. pose proof (match_sequences_unchanged h query_file rows h') as Hsame.
  pose proof E as [l T]%match_sequences_touched.
  pose proof T as (Hk & Hf & Hb & Hc & Hg & Hs & Hm).
  split_and!; try done.
  - intros kmer [refs Hin]%elem_of_dom. apply elem_of_dom.
    rewrite Hm, Hin. by eexists.
  - intros kmer. by eapply touched_refs_of.
  - intros ref. by eapply kmers_for_alike, touched_same_answers.
  - intros Hexact. by apply Hsame.
Qed.

End MoreMatching.

(** ** Invariants of the build *)

Section MoreBuild.
Context {B : Type} `{MB : Membership B}.
Implicit Types h : BloomFilterHandler B.



(** An invariant [J] of the running total, the current reference and the
    handler survives the processing of a file when it survives the
    forgetting of the current reference, the storing of the k-mers of a
    record under a non-empty current reference, and the reading of a header
    line. *)
Section Counting.
Variable J : nat → option string → BloomFilterHandler B → Prop.
Variable okname : string → Prop.
Hypothesis J_forget : ∀ c cur h, J c cur h → J c None h.
Hypothesis J_added : ∀ c ref h s h',
  PyStr.nonempty ref = true → J c (Some ref) h →
  added h (extract_kmers h s) ref h' →
  J (c + length (extract_kmers h s)) (Some ref) h'.
Hypothesis J_name : ∀ c cur h name g,
  okname name → J c cur h →
  J c (Some name)
    (with_reference_gca_map h (<[name := g]> (reference_gca_map h))).

Lemma _process_file_kmers_counting c h f :
  headers_ok okname f.2 → is_Some (bloom h) → J c None h →
  ∃ n h', _process_file_kmers h f = Ok (n, h')
    ∧ J (c + n) None h' ∧ is_Some (bloom h') ∧ kmer_size h' = kmer_size h.
Proof.
  intros Hh Hb HJ. unfold _process_file_kmers.
  set (gca := _extract_gca_from_filename f.1).
  pose (I := λ (rest : list string) (st : @scan B),
          headers_ok okname rest
          ∧ J (c + st.1.1.1) st.1.1.2 st.2
          ∧ is_Some (bloom st.2) ∧ kmer_size st.2 = kmer_size h).
  destruct (for_each_inv (process_line gca) I) with
    (l := f.2) (s := ((0, None, [], h) : scan))
    as ([[[cp cur] data] h1] & E & _ & HJ1 & Hb1 & Hk1).
  - clear Hh Hb HJ.
    intros raw rest [[[cp cur] data] hh] (Hh & HJ & Hb & Hk).
    simpl in HJ, Hb, Hk.
    destruct (PyStr.startswith ">" (PyStr.strip raw)) eqn:Hs.
    + destruct (process_line_header gca cp cur data hh raw Hs Hb)
        as (name & En & [[Hp E]|(ref & h1 & Hp & Ha & E)]).
      * eexists. split; [exact E|]. unfold I. simpl. split_and!; try done.
        -- by eapply headers_ok_cons.
        -- eapply J_name; [|exact HJ]. eapply Hh; [|done..]. apply elem_of_cons. by left.
      * apply pending_Some in Hp as (-> & Hne & _).
        eexists. split; [exact E|]. unfold I. simpl. split_and!.
        -- by eapply headers_ok_cons.
        -- eapply J_name; [eapply Hh; [|done..]; apply elem_of_cons; by left|].
           rewrite Nat.add_assoc. by apply J_added.
        -- by eapply added_bloom.
        -- destruct Ha as (-> & _). done.
    + rewrite process_line_body by done. eexists. split; [done|].
      unfold I. simpl. split_and!; try done. by eapply headers_ok_cons.
  - unfold I. simpl. rewrite Nat.add_0_r. by split_and!.
  - rewrite E. simpl in *.
    destruct (pending cur data) as [ref|] eqn:Hp.
    + destruct (_add_kmers_to_bloom_spec h1 (PyStr.join data) ref Hb1)
        as (h2 & E2 & Ha).
      rewrite E2. simpl. eexists _, _. split; [done|].
      apply pending_Some in Hp as (-> & Hne & _). split_and!.
      * rewrite Nat.add_assoc. eapply J_forget. by apply J_added.
      * by eapply added_bloom.
      * destruct Ha as (-> & _). done.
    + eexists _, _. split; [done|]. split_and!; try done. by eapply J_forget.
Qed.

Lemma ingest_counting (db : list file) : ∀ c h,
  (∀ f, f ∈ db → PyStr.endswith_any ingested_extensions f.1 = true →
        headers_ok okname f.2) →
  is_Some (bloom h) → J c None h →
  ∃ n h', for_each ingest_file db (c, h) = Ok (n, h')
    ∧ J n None h' ∧ is_Some (bloom h') ∧ kmer_size h' = kmer_size h.
Proof.
  induction db as [|f db IH]; intros c h Hdb Hb HJ.
  - eexists _, _. by split_and!.
  - rewrite for_each_cons.
    assert (∀ f', f' ∈ db →
              PyStr.endswith_any ingested_extensions f'.1 = true →
              headers_ok okname f'.2) as Hdb'.
    { intros f' Hin. apply Hdb. apply elem_of_cons. by right. }
    destruct (PyStr.endswith_any ingested_extensions f.1) eqn:Hext.
    + rewrite ingest_file_accepted by done.
      destruct (_process_file_kmers_counting c h f) as (n & h1 & E & HJ1 & Hb1 & Hk1);
        [apply Hdb; [apply elem_of_cons; by left | done] | done..|].
      rewrite E. simpl.
      destruct (IH (c + n) h1) as (n' & h' & E' & HJ' & Hb' & Hk'); [done..|].
      eexists _, _. split; [exact E'|]. split_and!; try done. congruence.
    + rewrite ingest_file_skipped by done. by apply IH.
Qed.

End Counting.

(** How [load_database_multithreaded] ends. *)
Lemma load_database_cases h0 (db : list file) num_threads :
  ((_estimate_total_kmers_in_db h0 db = 0 ∨ factor h0 = 0
    ∨ (num_threads ≤ 0)%Z)
   ∧ load_database_multithreaded h0 db num_threads = Raise ValueError)
  ∨ (0 < _estimate_total_kmers_in_db h0 db ∧ 0 < factor h0
     ∧ (0 < num_threads)%Z
     ∧ ∃ n h,
         for_each ingest_file db
           (0, with_bloom h0
                 (Some (bf_new (_estimate_total_kmers_in_db h0 db * factor h0)))) = Ok (n, h)
         ∧ load_database_multithreaded h0 db num_threads = Ok h).
Proof.
  unfold load_database_multithreaded, _initialize_bloom_filter.
  destruct (Nat.ltb_spec 0 (_estimate_total_kmers_in_db h0 db)) as [Hpos|Hz].
  2: { left. split; [left; lia | done]. }
  destruct (Nat.ltb_spec 0 (_estimate_total_kmers_in_db h0 db * factor h0))
    as [Hcap|Hcap].
  2: { left. split; [right; left; nia | done]. }
  simpl. destruct (Z.ltb_spec 0 num_threads) as [Ht|Ht].
  2: { left. split; [by right; right | done]. }
  right. split_and!; [done | nia | done |].
  destruct (ingest_preserves (λ _, True) (λ _, True)) with
    (db := db) (c := 0)
    (h := with_bloom h0 (Some (bf_new (_estimate_total_kmers_in_db h0 db * factor h0))))
    as (n & h' & E & _); try done.
  exists n, h'. by rewrite E.
Qed.

Lemma sum_counts_insert (m : gmap string nat) ref n :
  sum_counts (<[ref := n]> m) + default 0 (m !! ref) = sum_counts m + n.
Proof.
  unfold sum_counts.
  destruct (m !! ref) as [old|] eqn:E; simpl.
  - rewrite <- (insert_delete_id m ref old E) at 2.
    rewrite <- insert_delete_eq.
    rewrite (map_fold_insert_L _ _ ref n (delete ref m));
      [|intros; lia|by rewrite lookup_delete_eq].
    rewrite (map_fold_insert_L _ _ ref old (delete ref m));
      [|intros; lia|by rewrite lookup_delete_eq].
    lia.
  - rewrite map_fold_insert_L; [lia | intros; lia | done].
Qed.

Lemma extract_kmers_elem_length h s kmer :
  kmer ∈ extract_kmers h s → String.length kmer = kmer_size h.
Proof.
  unfold extract_kmers. change (map ?f ?l) with (f <$> l).
  intros (i & -> & Hi%elem_of_seq)%list_elem_of_fmap.
  apply substring_length. lia.
Qed.

Lemma query_kmers_elem_length h data kmer :
  kmer ∈ query_kmers h data → String.length kmer = kmer_size h.
Proof.
  unfold query_kmers. rewrite elem_of_list_to_set, _extract_kmers_eq.
  apply extract_kmers_elem_length.
Qed.

Lemma added_refs_of h kmers ref h' kmer :
  added h kmers ref h' →
  refs_of h' kmer =
    if decide (kmer ∈ kmers) then {[ref]} ∪ refs_of h kmer else refs_of h kmer.
Proof.
  intros (_ & _ & _ & Hm & _). unfold refs_of at 1. rewrite Hm. by case_decide.
Qed.

Lemma added_kmers_for h kmers ref h' r :
  added h kmers ref h' →
  kmers_for h' r =
    if decide (r = ref) then kmers_for h ref ∪ list_to_set kmers
    else kmers_for h r.
Proof.
  intros Ha. apply set_eq. intros x.
  rewrite elem_of_kmers_for, (added_refs_of _ _ _ _ x Ha).
  destruct (decide (r = ref)) as [->|Hne].
  - rewrite elem_of_union, elem_of_list_to_set, elem_of_kmers_for.
    case_decide; set_solver.
  - rewrite elem_of_kmers_for. case_decide; set_solver.
Qed.

Lemma size_union_le (X Y : gset string) : size (X ∪ Y) ≤ size X + size Y.
Proof.
  rewrite size_union_alt.
  assert (size (Y ∖ X) ≤ size Y); [apply subseteq_size; set_solver | lia].
Qed.

Lemma size_list_to_set_le (l : list string) :
  size (list_to_set (C := gset string) l) ≤ length l.
Proof.
  induction l as [|x l IH].
  - change (list_to_set (C := gset string) []) with (∅ : gset string).
    by rewrite size_empty.
  - change (list_to_set (C := gset string) (x :: l))
      with ({[x]} ∪ list_to_set (C := gset string) l).
    etrans; [apply size_union_le|]. rewrite size_singleton. simpl. lia.
Qed.

(** The invariants, one by one. *)

Lemma ingest_totals capacity (db : list file) h0 n h :
  reference_kmer_count h0 = ∅ →
  for_each ingest_file db (0, with_bloom h0 (Some (bf_new capacity))) = Ok (n, h) →
  sum_counts (reference_kmer_count h) = n
  ∧ ∃ inserted, bloom h = Some (add_all inserted (bf_new capacity))
      ∧ length inserted = n.
Proof.
  intros Hempty E.
  destruct (ingest_counting
              (λ c _ h, sum_counts (reference_kmer_count h) = c
                        ∧ ∃ inserted,
                            bloom h = Some (add_all inserted (bf_new capacity))
                            ∧ length inserted = c)
              (λ _, True)) with (db := db) (c := 0)
              (h := with_bloom h0 (Some (bf_new capacity)))
    as (n' & h' & E' & HJ & _).
  - done.
  - intros c ref h1 s h2 _ [Hsum (ins & Hb & Hlen)] Ha.
    destruct Ha as (_ & _ & Hb' & _ & Hc & _). split.
    + rewrite Hc. pose proof (sum_counts_insert (reference_kmer_count h1) ref
        (default 0 (reference_kmer_count h1 !! ref) + length (extract_kmers h1 s))).
      lia.
    + exists (ins ++ extract_kmers h1 s). rewrite Hb', Hb. simpl.
      by rewrite add_all_app, length_app, Hlen.
  - intros c cur h1 name g _ HJ. exact HJ.
  - done.
  - by eexists.
  - simpl. rewrite Hempty. split; [done|]. by exists [].
  - rewrite E in E'. by injection E' as <- <-.
Qed.

Lemma ingest_key_lengths (db : list file) : ∀ c h c' h',
  is_Some (bloom h) →
  (∀ kmer, kmer ∈ dom (kmer_to_reference h) → String.length kmer = kmer_size h) →
  for_each ingest_file db (c, h) = Ok (c', h') →
  kmer_size h' = kmer_size h
  ∧ ∀ kmer, kmer ∈ dom (kmer_to_reference h') → String.length kmer = kmer_size h.
Proof.
  intros c h c' h' Hb Hlen E.
  destruct (ingest_counting
              (λ _ _ h1, kmer_size h1 = kmer_size h
                         ∧ ∀ kmer, kmer ∈ dom (kmer_to_reference h1) →
                                   String.length kmer = kmer_size h)
              (λ _, True)) with (db := db) (c := c) (h := h)
    as (n' & h1 & E' & HJ & _); try done.
  - intros c0 ref h1 s h2 _ [Hk Hl] Ha.
    pose proof Ha as (Hk' & _ & _ & Hm & _). split; [congruence|].
    intros kmer [refs Hin]%elem_of_dom. rewrite Hm in Hin.
    case_decide as Hd.
    + rewrite <- Hk. by eapply extract_kmers_elem_length.
    + apply Hl, elem_of_dom. by eexists.
  - rewrite E in E'. by injection E' as <- <-.
Qed.

Lemma ingest_consistent (db : list file) : ∀ c h c' h',
  is_Some (bloom h) → catalog_consistent h →
  for_each ingest_file db (c, h) = Ok (c', h') → catalog_consistent h'.
Proof.
  intros c h c' h' Hb Hcons E.
  destruct (ingest_counting
              (λ _ cur h1, catalog_consistent h1
                           ∧ ∀ r, cur = Some r → r ∈ dom (reference_gca_map h1))
              (λ _, True)) with (db := db) (c := c) (h := h)
    as (n' & h1 & E' & [HJ _] & _); try done.
  - intros c0 cur h1 [Hc _]. split; [done|]. by intros r.
  - intros c0 ref h1 s h2 Hne [Hc Hcur] Ha.
    pose proof Ha as (_ & _ & _ & Hm & Hcnt & Hg & _). split.
    + intros kmer refs Hin. rewrite Hm in Hin. case_decide as Hd.
      * injection Hin as <-. split; [set_solver|].
        intros r [->%elem_of_singleton|Hr]%elem_of_union.
        -- split_and!; [done| |].
           ++ rewrite Hcnt, dom_insert_L. set_solver.
           ++ rewrite Hg. by apply Hcur.
        -- unfold refs_of in Hr.
           destruct (kmer_to_reference h1 !! kmer) as [old|] eqn:Eo; [|set_solver].
           destruct (Hc kmer old Eo) as [_ Hall].
           destruct (Hall r Hr) as (? & ? & ?). split_and!; [done| |by rewrite Hg].
           rewrite Hcnt, dom_insert_L. set_solver.
      * destruct (Hc kmer refs Hin) as [Hne' Hall]. split; [done|].
        intros r Hr. destruct (Hall r Hr) as (? & ? & ?).
        split_and!; [done| |by rewrite Hg].
        rewrite Hcnt, dom_insert_L. set_solver.
    + intros r [= <-]. rewrite Hg. by apply Hcur.
  - intros c0 cur h1 name g _ [Hc Hcur]. split.
    + intros kmer refs Hin. destruct (Hc kmer refs Hin) as [Hne' Hall].
      split; [done|]. intros r Hr. destruct (Hall r Hr) as (? & ? & ?).
      split_and!; [done..|]. simpl. rewrite dom_insert_L. set_solver.
    + intros r [= <-]. simpl. rewrite dom_insert_L. set_solver.
  - rewrite E in E'. by injection E' as <- <-.
Qed.

Lemma ingest_distinct_below_raw (db : list file) : ∀ c h c' h',
  is_Some (bloom h) →
  (∀ ref, size (kmers_for h ref) ≤ default 0 (reference_kmer_count h !! ref)) →
  for_each ingest_file db (c, h) = Ok (c', h') →
  ∀ ref, size (kmers_for h' ref) ≤ default 0 (reference_kmer_count h' !! ref).
Proof.
  intros c h c' h' Hb Hle E.
  destruct (ingest_counting
              (λ _ _ h1, ∀ ref, size (kmers_for h1 ref)
                                ≤ default 0 (reference_kmer_count h1 !! ref))
              (λ _, True)) with (db := db) (c := c) (h := h)
    as (n' & h1 & E' & HJ & _); try done.
  - intros c0 ref h1 s h2 _ HJ Ha r.
    rewrite (added_kmers_for _ _ _ _ r Ha).
    destruct Ha as (_ & _ & _ & _ & -> & _).
    destruct (decide (r = ref)) as [->|Hne].
    + rewrite lookup_insert_eq. simpl.
      etrans; [apply size_union_le|].
      pose proof (size_list_to_set_le (extract_kmers h1 s)).
      specialize (HJ ref). lia.
    + rewrite lookup_insert_ne by done. apply HJ.
  - rewrite E in E'. by injection E' as <- <-.
Qed.

End MoreBuild.

Section BuildTheorems.
Context {B : Type} `{MB : Membership B}.
Implicit Types h : BloomFilterHandler B.

Lemma build_ingest k (db : list file) h :
  build k db = Ok h →
  0 < _estimate_total_kmers_in_db (__init__ (B:=B) k 4) db
  ∧ ∃ n, for_each ingest_file db
           (0, with_bloom (__init__ k 4)
                 (Some (bf_new (_estimate_total_kmers_in_db (__init__ (B:=B) k 4) db * 4))))
         = Ok (n, h).
Proof.
  unfold build. intros Hbuild.
  destruct (load_database_cases (__init__ k 4) db 4)
    as [[_ E]|(Hpos & _ & _ & n & h' & E & E')]; [congruence|].
  split; [done|]. exists n. rewrite Hbuild in E'. by injection E' as ->.
Qed.

(** X6. After a build that stayed within the capacity of its filter, the
    raw counts of the references add up to the number of k-mers that were
    added to the filter, which is the total that the tasks return and is at
    most the capacity; the filter was made for the estimate times four. *)
Theorem X6_raw_counts_add_up k (db : list file) h :
  build k db = Ok h →
  within_capacity (B:=B) k db →
  let capacity := _estimate_total_kmers_in_db (__init__ (B:=B) k 4) db * 4 in
  ∃ inserted,
    bloom h = Some (add_all inserted (bf_new capacity))
    ∧ length inserted ≤ capacity
    ∧ sum_counts (reference_kmer_count h) = length inserted
    ∧ ∃ h1, _initialize_bloom_filter (__init__ k 4) capacity = Ok h1
        ∧ _load_kmers_into_bloom h1 db = Ok (length inserted, h).
Proof.
  intros Hbuild (h1 & m & g & Hinit & Hload & Hle) capacity.
  apply build_ingest in Hbuild as (Hpos & n & E).
  destruct (ingest_totals _ db (__init__ k 4) n h eq_refl E)
    as (Hsum & ins & Hb & Hlen).
  fold capacity in Hinit, Hle, E, Hb.
  unfold _initialize_bloom_filter in Hinit.
  destruct (0 <? capacity) eqn:Hcap; [|done]. injection Hinit as <-.
  unfold _load_kmers_into_bloom in Hload. rewrite E in Hload.
  injection Hload as <- <-.
  exists ins. split_and!; [done | lia | congruence |].
  exists (with_bloom (__init__ k 4) (Some (bf_new capacity))).
  unfold _initialize_bloom_filter, _load_kmers_into_bloom.
  rewrite Hcap. split; [done|]. by rewrite Hlen.
Qed.

(** X7. [load_database_multithreaded] raises [ValueError] exactly when the
    estimate is zero, or [factor] is zero (the filter cannot be made), or
    [num_threads] is not positive (the pool cannot be made); it raises
    nothing else, and otherwise returns a handler with a filter and the
    [kmer_size] it had. *)
Theorem X7_when_the_build_raises h0 (db : list file) (num_threads : Z) :
  (load_database_multithreaded h0 db num_threads = Raise ValueError
   ↔ _estimate_total_kmers_in_db h0 db = 0 ∨ factor h0 = 0
     ∨ (num_threads ≤ 0)%Z)
  ∧ (∀ e, load_database_multithreaded h0 db num_threads = Raise e →
          e = ValueError)
  ∧ (0 < _estimate_total_kmers_in_db h0 db → 0 < factor h0 →
     (0 < num_threads)%Z →
     ∃ h, load_database_multithreaded h0 db num_threads = Ok h
          ∧ is_Some (bloom h) ∧ kmer_size h = kmer_size h0).
Proof.
  destruct (load_database_cases h0 db num_threads)
    as [[Hz E]|(Hpos & Hf & Ht & n & h & E & E')].
  - split_and!.
    + by rewrite E.
    + rewrite E. by intros e [= <-].
    + lia.
  - split_and!.
    + rewrite E'. split; [done | lia].
    + rewrite E'. done.
    + intros _ _ _. exists h. split; [done|].
      eapply (load_database_preserves (λ _, True) (λ _, True)) in E'
        as (_ & Hb & Hk); done.
Qed.

(** X8. A database without a file whose path ends in [.fna] or [.fna.gz]
    cannot be built, whatever its [.fasta] and [.fasta.gz] files hold and
    whatever the number of threads: the estimate is zero and the build
    raises [ValueError]. *)
Theorem X8_fasta_only_database_is_rejected h0 (db : list file)
    (num_threads : Z) :
  (∀ f, f ∈ db → PyStr.endswith_any [".fna"; ".fna.gz"] f.1 = false) →
  load_database_multithreaded h0 db num_threads = Raise ValueError.
Proof.
  intros Hnone.
  destruct (load_database_cases h0 db num_threads)
    as [[_ E]|(Hpos & _)]; [done|].
  exfalso. rewrite _estimate_total_kmers_in_db_sum in Hpos.
  match type of Hpos with
  | context [filter ?P db] => assert (filter P db = []) as Hf
  end.
  { apply elem_of_nil_inv. intros f [Hext Hin]%list_elem_of_filter.
    pose proof (Hnone f Hin) as Hno. unfold estimated_extensions in Hext.
    congruence. }
  rewrite Hf in Hpos. simpl in Hpos. lia.
Qed.

(** X9. After a build every key of the reverse index, and so every k-mer
    of every reference, has exactly [kmer_size] characters. *)
Theorem X9_catalogued_kmers_have_length_k k (db : list file) h :
  build k db = Ok h →
  kmer_size h = k
  ∧ (∀ kmer, kmer ∈ dom (kmer_to_reference h) → String.length kmer = k)
  ∧ (∀ ref kmer, kmer ∈ kmers_for h ref → String.length kmer = k).
Proof.
  intros (_ & n & E)%build_ingest.
  destruct (ingest_key_lengths db 0
              (with_bloom (__init__ k 4)
                 (Some (bf_new (_estimate_total_kmers_in_db (__init__ (B:=B) k 4) db * 4)))) n h)
    as [Hk Hlen]; [by eexists| |exact E|].
  { simpl. intros kmer. rewrite dom_empty_L. set_solver. }
  split_and!; try done. intros ref kmer Hin%elem_of_kmers_for.
  apply Hlen. by eapply refs_of_dom.
Qed.

(** X10. After a build that stayed within the capacity of its filter,
    every key of the reverse index has a reference; every reference of a
    key has a non-empty name, a raw count and an accession; and a reference
    has at most as many different k-mers as its raw count. *)
Theorem X10_catalog_is_consistent k (db : list file) h :
  build k db = Ok h →
  within_capacity (B:=B) k db →
  catalog_consistent h
  ∧ ∀ ref, size (kmers_for h ref) ≤ default 0 (reference_kmer_count h !! ref).
Proof.
  intros (_ & n & E)%build_ingest _. split.
  - refine (ingest_consistent db _ _ _ _ _ _ E); [by eexists|].
    intros kmer refs Hin. simpl in Hin. by rewrite lookup_empty in Hin.
  - refine (ingest_distinct_below_raw db _ _ _ _ _ _ E); [by eexists|].
    intros ref. simpl.
    assert (kmers_for (with_bloom (__init__ (B:=B) k 4)
              (Some (bf_new (_estimate_total_kmers_in_db (__init__ (B:=B) k 4) db * 4)))) ref = ∅)
      as ->; [|rewrite size_empty; lia].
    apply set_eq. intros x. rewrite elem_of_kmers_for. unfold refs_of. simpl.
    rewrite lookup_empty. set_solver.
Qed.

(** When no k-mer of a query file has a reference, no row is written. *)
Lemma match_sequences_no_rows h query_file rows h' :
  match_sequences h query_file = Ok (rows, h') →
  (∀ name data kmer, (name, data) ∈ _read_fasta_file query_file →
     kmer ∈ query_kmers h data → refs_of h kmer = ∅) →
  rows = [].
Proof.
  intros E Hnone. apply match_sequences_rows in E as [_ Hrows].
  destruct rows as [|row rows]; [done|]. exfalso.
  destruct (proj1 (Hrows row)) as (name & data & ref & Hin & Hne & _).
  { apply elem_of_cons. by left. }
  apply Hne. apply set_eq. intros kmer. split; [|set_solver].
  unfold matched_set. rewrite elem_of_filter. intros [[Hp Href] Hk].
  rewrite (Hnone name data kmer Hin Hk) in Href. set_solver.
Qed.

(** X11. An index that was built with one [kmer_size], saved, and loaded
    by a handler made with another one writes no row, whatever the query
    file that is matched. *)
Theorem X11_other_kmer_size_matches_nothing k (db : list file) h directory
    (disk : gmap string (Pickled B)) h0 h1 query_file rows h' :
  build k db = Ok h →
  kmer_size h0 ≠ k →
  load_bloom_filter h0 (PyStr.path_join directory "bloom_filter.pkl")
    (save_bloom_filter h directory disk) = Ok h1 →
  match_sequences h1 query_file = Ok (rows, h') →
  rows = [].
Proof.
  intros Hbuild Hk Hload E. rewrite load_after_save in Hload.
  injection Hload as <-.
  destruct (build_ingest _ _ _ Hbuild) as (_ & n & Ei).
  destruct (ingest_key_lengths db 0
              (with_bloom (__init__ k 4)
                 (Some (bf_new (_estimate_total_kmers_in_db (__init__ (B:=B) k 4) db * 4)))) n h)
    as [_ Hlen]; [by eexists| |exact Ei|].
  { simpl. intros kmer. rewrite dom_empty_L. set_solver. }
  simpl in Hlen.
  eapply match_sequences_no_rows; [exact E|].
  intros name data kmer _ Hq%query_kmers_elem_length. simpl in Hq.
  apply set_eq. intros ref. split; [|set_solver].
  intros Href%refs_of_dom. simpl in Href. apply Hlen in Href. congruence.
Qed.

(** X12. On the index of a build that stayed within the capacity of its
    filter, every row has at least one matched k-mer, no more matched
    k-mers than the query has k-mers, and no more than the raw count of its
    reference; the reference has a non-empty name and the row shows the
    raw count and the accession that were recorded for it. *)
Theorem X12_rows_of_a_built_index k (db : list file) h query_file rows h' :
  build k db = Ok h →
  within_capacity (B:=B) k db →
  match_sequences h query_file = Ok (rows, h') →
  ∀ row, row ∈ rows →
    1 ≤ matched_kmers row
    ∧ matched_kmers row ≤ total_input_kmers row
    ∧ matched_kmers row ≤ reference_total_kmers row
    ∧ PyStr.nonempty (reference row) = true
    ∧ reference_kmer_count h !! reference row = Some (reference_total_kmers row)
    ∧ reference_gca_map h !! reference row = Some (gca_name row).
Proof.
  intros Hbuild _ E row Hrow.
  destruct (build_ingest _ _ _ Hbuild) as (_ & n & Ei).
  assert (catalog_consistent h) as Hcons.
  { refine (ingest_consistent db _ _ _ _ _ _ Ei); [by eexists|].
    intros kmer refs Hin. simpl in Hin. by rewrite lookup_empty in Hin. }
  assert (∀ ref, size (kmers_for h ref)
                 ≤ default 0 (reference_kmer_count h !! ref)) as Hraw.
  { refine (ingest_distinct_below_raw db _ _ _ _ _ _ Ei); [by eexists|].
    intros ref. simpl.
    assert (kmers_for (with_bloom (__init__ (B:=B) k 4)
              (Some (bf_new (_estimate_total_kmers_in_db (__init__ (B:=B) k 4) db * 4)))) ref = ∅)
      as ->; [|rewrite size_empty; lia].
    apply set_eq. intros x. rewrite elem_of_kmers_for. unfold refs_of. simpl.
    rewrite lookup_empty. set_solver. }
  apply match_sequences_rows in E as [_ Hrows].
  apply Hrows in Hrow as (name & data & ref & Hin & Hne & ->).
  rewrite score_fields. simpl.
  destruct (hit_nonempty _ _ _ Hne) as (H1 & _ & _).
  pose proof (matched_set_subseteq h (query_kmers h data) ref) as Hsub.
  assert (size (matched_set h (query_kmers h data) ref)
          ≤ size (query_kmers h data)) as HleQ
    by (apply subseteq_size; set_solver).
  assert (size (matched_set h (query_kmers h data) ref)
          ≤ size (kmers_for h ref)) as HleR
    by (apply subseteq_size; set_solver).
  specialize (Hraw ref).
  assert (∃ kmer refs, kmer_to_reference h !! kmer = Some refs ∧ ref ∈ refs)
    as (kmer & refs & Hl & Href).
  { apply size_pos_elem_of in H1 as [kmer Hk]. apply Hsub in Hk.
    apply elem_of_intersection in Hk as [_ Hk%elem_of_kmers_for].
    unfold refs_of in Hk. exists kmer.
    destruct (kmer_to_reference h !! kmer) as [refs|]; [by exists refs | set_solver]. }
  destruct (Hcons kmer refs Hl) as [_ Hall].
  destruct (Hall ref Href) as (Hname & [c Hc]%elem_of_dom & [g Hg]%elem_of_dom).
  rewrite Hc, Hg in *. simpl in *. split_and!; try done; lia.
Qed.

(** X13. The build stores no sequence: afterwards
    [get_reference_sequence] returns the empty string for every name. *)
Theorem X13_no_sequence_is_stored k (db : list file) h reference_name :
  build k db = Ok h → get_reference_sequence h reference_name = "".
Proof.
  intros Hbuild. unfold build in Hbuild.
  eapply (load_database_preserves (λ h, reference_sequences h = ∅) (λ _, True))
    in Hbuild as (Hs & _); try done.
  - unfold get_reference_sequence. by rewrite Hs, lookup_empty.
  - intros h1 kmers ref h2 _ Hs (_ & _ & _ & _ & _ & _ & Hs'). congruence.
Qed.

Lemma ingest_equals_estimate h0 (db : list file) : ∀ c h,
  1 ≤ kmer_size h0 → kmer_size h = kmer_size h0 → is_Some (bloom h) →
  (∀ f, f ∈ db → PyStr.endswith_any ingested_extensions f.1 = true →
        PyStr.endswith_any estimated_extensions f.1 = true
        ∧ well_formed f = true) →
  ∃ h', for_each ingest_file db (c, h)
        = Ok (c + _estimate_total_kmers_in_db h0 db, h').
Proof.
  induction db as [|f db IH]; intros c h Hk1 Hk Hb Hwf.
  - exists h. rewrite _estimate_total_kmers_in_db_sum, filter_nil. simpl.
    by rewrite Nat.add_0_r.
  - assert (∀ f', f' ∈ db →
              PyStr.endswith_any ingested_extensions f'.1 = true →
              PyStr.endswith_any estimated_extensions f'.1 = true
              ∧ well_formed f' = true) as Hwf'.
    { intros f' Hin. apply Hwf. apply elem_of_cons. by right. }
    rewrite for_each_cons, _estimate_total_kmers_in_db_sum, filter_cons.
    destruct (PyStr.endswith_any ingested_extensions f.1) eqn:Eing.
    + destruct (Hwf f) as [Eest Hf]; [apply elem_of_cons; by left | done |].
      rewrite decide_True by done. rewrite fmap_cons.
      change (sum_list (estimate_kmers h0 f :: ?l))
        with (estimate_kmers h0 f + sum_list l).
      rewrite ingest_file_accepted by done.
      destruct (_process_file_kmers_estimate h0 h f) as (h1 & E & Hb1 & Hk1');
        [done..|].
      rewrite E. simpl.
      destruct (IH (c + estimate_kmers h0 f) h1) as (h' & E'); [done..|].
      exists h'. rewrite _estimate_total_kmers_in_db_sum, <- Nat.add_assoc in E'.
      exact E'.
    + assert (PyStr.endswith_any estimated_extensions f.1 = false) as Eest.
      { destruct (PyStr.endswith_any estimated_extensions f.1) eqn:Ee; [|done].
        apply estimated_is_ingested in Ee. congruence. }
      rewrite decide_False by (by rewrite Eest).
      rewrite ingest_file_skipped by done.
      destruct (IH c h) as (h' & E'); [done..|].
      exists h'. rewrite _estimate_total_kmers_in_db_sum in E'. exact E'.
Qed.

(** X14. When every file that the build reads is a well-formed [.fna] or
    [.fna.gz] file and [kmer_size] is at least one, the estimate is exact:
    the raw counts of the built index add up to it, so the filter was made
    for four times the k-mers it received. *)
Theorem X14_estimate_is_exact_on_fna k (db : list file) h :
  1 ≤ k →
  (∀ f, f ∈ db →
     PyStr.endswith_any [".fna"; ".fna.gz"; ".fasta"; ".fasta.gz"] f.1 = true →
     PyStr.endswith_any [".fna"; ".fna.gz"] f.1 = true ∧ well_formed f = true) →
  build k db = Ok h →
  sum_counts (reference_kmer_count h)
    = _estimate_total_kmers_in_db (__init__ (B:=B) k 4) db.
Proof.
  intros Hk Hwf Hbuild.
  destruct (build_ingest _ _ _ Hbuild) as (_ & n & Ei).
  destruct (ingest_totals _ db (__init__ k 4) n h eq_refl Ei) as (Hsum & _).
  destruct (ingest_equals_estimate (__init__ k 4) db 0
              (with_bloom (__init__ k 4)
                 (Some (bf_new (_estimate_total_kmers_in_db (__init__ (B:=B) k 4) db * 4)))))
    as (h' & E'); [done|done|by eexists|done|].
  rewrite Ei in E'. injection E' as -> _. done.
Qed.

(** X15. A file in which no header line carries a name (in particular a
    file without header lines) adds nothing: the call returns zero and
    leaves the filter, the reverse index and the raw counts as they were;
    only the accession of the empty name may be recorded. *)
Theorem X15_nameless_records_are_dropped h f :
  headers_ok (λ name, name = "") f.2 →
  is_Some (bloom h) →
  ∃ h', _process_file_kmers h f = Ok (0, h')
    ∧ bloom h' = bloom h
    ∧ kmer_to_reference h' = kmer_to_reference h
    ∧ reference_kmer_count h' = reference_kmer_count h
    ∧ ∀ ref, ref ≠ "" → reference_gca_map h' !! ref = reference_gca_map h !! ref.
Proof.
  intros Hh Hb.
  destruct (_process_file_kmers_counting
              (λ c cur h1,
                 c = 0 ∧ (cur = None ∨ cur = Some "")
                 ∧ bloom h1 = bloom h
                 ∧ kmer_to_reference h1 = kmer_to_reference h
                 ∧ reference_kmer_count h1 = reference_kmer_count h
                 ∧ ∀ ref, ref ≠ "" →
                     reference_gca_map h1 !! ref = reference_gca_map h !! ref)
              (λ name, name = "")) with (c := 0) (h := h) (f := f)
    as (n & h' & E & (Hn & _ & HJ) & _); try done.
  - intros c cur h1 (-> & _ & Hb1 & Hm & Hc & Hg). split_and!; try done. by left.
  - intros c ref h1 s h2 Hne (_ & [Hcur|Hcur] & _) _; [done|].
    injection Hcur as ->. done.
  - intros c cur h1 name g -> (-> & _ & Hb1 & Hm & Hc & Hg).
    split_and!; try done; [by right|].
    intros ref Hne. simpl. rewrite lookup_insert_ne by done. by apply Hg.
  - split_and!; try done. by left.
  - exists h'. simpl in Hn. subst n. done.
Qed.

End BuildTheorems.

(** ** Reading a query file *)

Lemma _read_fasta_file_fold lines :
  _read_fasta_file lines = yield_last (fold_left read_line lines ([], None, [])).
Proof.
  unfold _read_fasta_file, yield_last.
  by destruct (fold_left read_line lines ([], None, [])) as [[y n] d].
Qed.

Lemma read_line_header y n d raw :
  is_header raw = true →
  read_line (y, n, d) raw
    = (yield_last (y, n, d), Some (PyStr.drop 1 (PyStr.strip raw)), []).
Proof. unfold is_header, read_line. intros ->. done. Qed.

Lemma read_line_body y n d raw :
  is_header raw = false →
  read_line (y, n, d) raw = (y, n, d ++ [PyStr.strip raw]).
Proof. unfold is_header, read_line. intros ->. done. Qed.

Lemma read_body (body : list string) : ∀ y n d,
  Forall (λ raw, is_header raw = false) body →
  fold_left read_line body (y, n, d) = (y, n, d ++ (PyStr.strip <$> body)).
Proof.
  induction body as [|raw body IH]; intros y n d Hb.
  - by rewrite app_nil_r.
  - apply Forall_cons in Hb as [Hraw Hb]. cbn [fold_left].
    rewrite read_line_body, IH by done. by rewrite <- app_assoc.
Qed.

Lemma read_yielded (lines : list string) : ∀ y n d,
  yield_last (fold_left read_line lines (y, n, d))
    = y ++ yield_last (fold_left read_line lines ([], n, d)).
Proof.
  induction lines as [|raw lines IH]; intros y n d.
  - simpl. destruct n; [done | by rewrite app_nil_r].
  - cbn [fold_left]. destruct (is_header raw) eqn:Hh.
    + rewrite !read_line_header by done.
      rewrite IH. rewrite (IH (yield_last ([], n, d))).
      simpl. destruct n; [by rewrite <- app_assoc | done].
    + rewrite !read_line_body by done. apply IH.
Qed.

Lemma read_unnamed (lines : list string) : ∀ d d',
  yield_last (fold_left read_line lines ([], None, d))
    = yield_last (fold_left read_line lines ([], None, d')).
Proof.
  induction lines as [|raw lines IH]; intros d d'; [done|].
  cbn [fold_left]. destruct (is_header raw) eqn:Hh.
  - by rewrite !read_line_header.
  - rewrite !read_line_body by done. apply IH.
Qed.

(** X16. [_read_fasta_file] drops the lines before the first header line;
    from a header line on, it yields one record, named by the whole header
    line without its first character, whose sequence is the concatenation
    of the stripped lines up to the next header line or the end; and it
    yields as many records as there are header lines. *)
Theorem X16_records_of_a_query_file :
  (∀ before lines,
     Forall (λ raw, is_header raw = false) before →
     _read_fasta_file (before ++ lines) = _read_fasta_file lines)
  ∧ (∀ header body rest,
       is_header header = true →
       Forall (λ raw, is_header raw = false) body →
       (rest = [] ∨ ∃ next rest', rest = next :: rest' ∧ is_header next = true) →
       _read_fasta_file (header :: body ++ rest)
         = (PyStr.drop 1 (PyStr.strip header), PyStr.join (PyStr.strip <$> body))
           :: _read_fasta_file rest)
  ∧ (∀ lines,
       length (_read_fasta_file lines) = length (filter (λ raw, is_header raw = true) lines)).
Proof.
  split_and!.
  - intros before lines Hb. rewrite !_read_fasta_file_fold, fold_left_app.
    rewrite read_body by done. apply read_unnamed.
  - intros header body rest Hh Hb Hrest.
    rewrite !_read_fasta_file_fold. cbn [fold_left].
    rewrite read_line_header by done. rewrite fold_left_app, read_body by done.
    simpl. destruct Hrest as [-> | (next & rest' & -> & Hn)]; [done|].
    cbn [fold_left]. rewrite !read_line_header by done.
    rewrite read_yielded. done.
  - intros lines. rewrite _read_fasta_file_fold.
    assert (∀ y n d,
              length (yield_last (fold_left read_line lines (y, n, d)))
              = length (yield_last (y, n, d))
                + length (filter (λ raw, is_header raw = true) lines)) as Hgen.
    { induction lines as [|raw lines IH]; intros y n d.
      - rewrite filter_nil. simpl. lia.
      - cbn [fold_left]. rewrite filter_cons. destruct (is_header raw) eqn:Hh.
        + rewrite read_line_header by done. rewrite IH.
          rewrite decide_True by done. simpl. rewrite length_app. simpl. lia.
        + rewrite read_line_body by done. rewrite IH.
          rewrite decide_False by done. simpl. destruct n; simpl; [|done].
          by rewrite !length_app. }
    rewrite Hgen. done.
Qed.

(** ** Names and accessions *)

Lemma substring_all (s : string) : substring 0 (String.length s) s = s.
Proof. induction s as [|c s IH]; simpl; [done | by rewrite IH]. Qed.

Lemma drop_one (c : ascii) (s : string) : PyStr.drop 1 (String c s) = s.
Proof.
  unfold PyStr.drop. simpl. rewrite Nat.sub_0_r. apply substring_all.
Qed.

Lemma flush_nonempty (c : ascii) (s : string) :
  PyStr.flush (String c s) = [String c s].
Proof. done. Qed.

Lemma split_from_token (name : string) : ∀ cur rest,
  no_blank name = true → ends_token rest = true →
  ∃ more, PyStr.split_from cur (name +:+ rest)
          = PyStr.flush (cur +:+ name) ++ more.
Proof.
  induction name as [|c name IH]; intros cur rest Hname Hrest.
  - rewrite append_empty_r. change ("" +:+ rest) with rest.
    destruct rest as [|c rest]; simpl.
    + exists []. by rewrite app_nil_r.
    + simpl in Hrest. rewrite Hrest. by eexists.
  - simpl in Hname. apply andb_true_iff in Hname as [Hc Hname].
    apply negb_true_iff in Hc. rewrite append_String. simpl. rewrite Hc.
    destruct (IH (cur +:+ String c "") rest Hname Hrest) as [more E].
    exists more. rewrite E. by rewrite append_assoc.
Qed.

(** X17. The reference name of a header line is the text between the
    marker and the first white space: what follows on the line is not part
    of the name, and no warning is printed. *)
Theorem X17_name_is_first_token (name rest : string) :
  no_blank name = true → ends_token rest = true →
  _extract_reference_name (">" +:+ name +:+ rest) = Ok (name, None).
Proof.
  intros Hname Hrest. unfold _extract_reference_name.
  change (">" +:+ name +:+ rest) with (String ">" (name +:+ rest)).
  assert (PyStr.startswith ">" (String ">" (name +:+ rest)) = true) as ->.
  { unfold PyStr.startswith.
    change (String.prefix ">" (String ">" (name +:+ rest)))
      with (if ascii_dec ">"%char ">"%char then String.prefix "" (name +:+ rest)
            else false).
    destruct (ascii_dec ">"%char ">"%char); [|done]. by destruct (name +:+ rest). }
  unfold PyStr.split.
  change (PyStr.split_from "" (String ">" (name +:+ rest)))
    with (PyStr.split_from ">" (name +:+ rest)).
  destruct (split_from_token name ">" rest Hname Hrest) as [more ->].
  change (">" +:+ name) with (String ">" name).
  rewrite flush_nonempty. simpl. by rewrite drop_one.
Qed.

Lemma span_digits_spec (s : string) :
  s = (PyStr.span_digits s).1 +:+ (PyStr.span_digits s).2
  ∧ all_digits (PyStr.span_digits s).1 = true
  ∧ no_leading_digit (PyStr.span_digits s).2 = true.
Proof.
  induction s as [|c s (IH1 & IH2 & IH3)]; [done|]. simpl.
  destruct (PyStr.isdigit c) eqn:Hc.
  - destruct (PyStr.span_digits s) as [d r]. simpl in *.
    split_and!; [by rewrite append_String, <- IH1 | by rewrite Hc | done].
  - simpl. by rewrite Hc.
Qed.

Lemma prefix_append (p s : string) :
  String.prefix p s = true →
  s = p +:+ substring (String.length p) (String.length s - String.length p) s.
Proof.
  revert s. induction p as [|a p IH]; intros s.
  - simpl. rewrite Nat.sub_0_r, substring_all. done.
  - destruct s as [|b s]; [done|].
    change (String.prefix (String a p) (String b s))
      with (if ascii_dec a b then String.prefix p s else false).
    destruct (ascii_dec a b) as [->|]; [|done]. intros Hp.
    rewrite append_String. simpl. f_equal. by apply IH.
Qed.

Lemma gca_at_spec (s g : string) :
  PyStr.gca_at s = Some g →
  ∃ d1 d2 rest,
    s = "GCA_" +:+ d1 +:+ "." +:+ d2 +:+ rest
    ∧ g = "GCA_" +:+ d1 +:+ "." +:+ d2
    ∧ all_digits d1 = true ∧ PyStr.nonempty d1 = true
    ∧ all_digits d2 = true ∧ PyStr.nonempty d2 = true
    ∧ no_leading_digit rest = true.
Proof.
  unfold PyStr.gca_at.
  destruct (PyStr.startswith "GCA_" s) eqn:Hp; [|done].
  apply prefix_append in Hp. fold (PyStr.drop 4 s) in Hp.
  destruct (span_digits_spec (PyStr.drop 4 s)) as (E1 & D1 & _).
  destruct (PyStr.span_digits (PyStr.drop 4 s)) as [d1 r1]. simpl in *.
  destruct r1 as [|c r2]; [done|].
  destruct (ascii_dec c ".") as [->|Hne].
  2: { destruct c as [[] [] [] [] [] [] [] []]; try done. }
  destruct (span_digits_spec r2) as (E2 & D2 & L2).
  destruct (PyStr.span_digits r2) as [d2 rest]. simpl in *.
  destruct (PyStr.nonempty d1 && PyStr.nonempty d2) eqn:Hn; [|done].
  apply andb_true_iff in Hn as [N1 N2]. intros [= <-].
  exists d1, d2, rest. split_and!; try done.
  unfold PyStr.drop in E1. rewrite Hp at 1. rewrite E1, E2. reflexivity.
Qed.

Lemma span_digits_app (d r : string) :
  all_digits d = true → no_leading_digit r = true →
  PyStr.span_digits (d +:+ r) = (d, r).
Proof.
  induction d as [|c d IH]; intros Hd Hr.
  - change ("" +:+ r) with r. destruct r as [|c r]; [done|].
    simpl in *. apply negb_true_iff in Hr. by rewrite Hr.
  - simpl in Hd. apply andb_true_iff in Hd as [Hc Hd].
    rewrite append_String. simpl. rewrite Hc, IH by done. done.
Qed.

Lemma span_digits_nonempty (d r : string) :
  all_digits d = true → PyStr.nonempty d = true →
  PyStr.nonempty (PyStr.span_digits (d +:+ r)).1 = true.
Proof.
  destruct d as [|c d]; [done|]. intros Hd _.
  simpl in Hd. apply andb_true_iff in Hd as [Hc Hd].
  rewrite append_String. simpl. rewrite Hc.
  by destruct (PyStr.span_digits (d +:+ r)).
Qed.

Lemma gca_at_complete (d1 d2 rest : string) :
  all_digits d1 = true → PyStr.nonempty d1 = true →
  all_digits d2 = true → PyStr.nonempty d2 = true →
  is_Some (PyStr.gca_at ("GCA_" +:+ d1 +:+ "." +:+ d2 +:+ rest)).
Proof.
  intros D1 N1 D2 N2. unfold PyStr.gca_at.
  change ("GCA_" +:+ d1 +:+ "." +:+ d2 +:+ rest)
    with (String "G" (String "C" (String "A" (String "_"
            (d1 +:+ String "." (d2 +:+ rest)))))).
  assert (PyStr.startswith "GCA_"
            (String "G" (String "C" (String "A" (String "_"
               (d1 +:+ String "." (d2 +:+ rest)))))) = true) as ->.
  { unfold PyStr.startswith. simpl.
    repeat (match goal with
            | |- context [ascii_dec ?a ?b] => destruct (ascii_dec a b); [|done]
            end).
    by destruct (d1 +:+ String "." (d2 +:+ rest)). }
  assert (PyStr.drop 4 (String "G" (String "C" (String "A" (String "_"
             (d1 +:+ String "." (d2 +:+ rest))))))
          = d1 +:+ String "." (d2 +:+ rest)) as ->.
  { unfold PyStr.drop. simpl. rewrite Nat.sub_0_r. apply substring_all. }
  rewrite span_digits_app by done.
  pose proof (span_digits_nonempty d2 rest D2 N2) as N2'.
  destruct (PyStr.span_digits (d2 +:+ rest)) as [d2' r']. simpl in N2'.
  rewrite N1, N2'. by eexists.
Qed.

Lemma append_cons_inv (c : ascii) (s before m : string) :
  String c s = before +:+ m →
  (before = "" ∧ m = String c s)
  ∨ ∃ before', before = String c before' ∧ s = before' +:+ m.
Proof.
  destruct before as [|a before].
  - intros ->. by left.
  - rewrite append_String. intros [= -> ->]. right. by eexists.
Qed.

(** [search_gca] returns the match at the leftmost place where [gca_at]
    finds one. *)
Lemma search_gca_scan (s : string) :
  match PyStr.search_gca s with
  | None => ∀ before m, s = before +:+ m → PyStr.gca_at m = None
  | Some g =>
      ∃ before m, s = before +:+ m ∧ PyStr.gca_at m = Some g
        ∧ ∀ before' m', s = before' +:+ m' →
            String.length before' < String.length before →
            PyStr.gca_at m' = None
  end.
Proof.
  induction s as [|c s IH].
  - simpl. intros before m E. destruct before; [|done].
    change ("" +:+ m) with m in E. by subst m.
  - cbn [PyStr.search_gca].
    destruct (PyStr.gca_at (String c s)) as [g|] eqn:Hg.
    + exists "", (String c s). split_and!; [done..|].
      intros before' m' _ Hlt. simpl in Hlt. lia.
    + destruct (PyStr.search_gca s) as [g|].
      * destruct IH as (before & m & -> & Hm & Hleft).
        exists (String c before), m. split_and!; [by rewrite append_String | done |].
        intros before' m' E Hlt.
        apply append_cons_inv in E as [[-> ->]|(b' & -> & E)]; [done|].
        apply (Hleft b' m' E). simpl in Hlt. lia.
      * intros before m E.
        apply append_cons_inv in E as [[-> ->]|(b' & -> & E)]; [done|].
        by apply (IH b' m).
Qed.

(** X18. [_extract_gca_from_filename] returns ["Unknown"] exactly when the
    pattern [GCA_], digits, a dot, digits does not occur in the path.
    Otherwise it returns the occurrence that begins first, with all the
    digits that follow the dot. *)
Theorem X18_accession_is_part_of_the_path (file_path : string) :
  (¬ holds_accession file_path
   ∧ _extract_gca_from_filename file_path = "Unknown")
  ∨ ∃ before d1 d2 rest,
      file_path = before +:+ "GCA_" +:+ d1 +:+ "." +:+ d2 +:+ rest
      ∧ _extract_gca_from_filename file_path = "GCA_" +:+ d1 +:+ "." +:+ d2
      ∧ all_digits d1 = true ∧ PyStr.nonempty d1 = true
      ∧ all_digits d2 = true ∧ PyStr.nonempty d2 = true
      ∧ no_leading_digit rest = true
      ∧ ∀ before' d1' d2' rest',
          file_path = before' +:+ "GCA_" +:+ d1' +:+ "." +:+ d2' +:+ rest' →
          all_digits d1' = true → PyStr.nonempty d1' = true →
          all_digits d2' = true → PyStr.nonempty d2' = true →
          String.length before ≤ String.length before'.
Proof.
  unfold _extract_gca_from_filename.
  pose proof (search_gca_scan file_path) as Hscan.
  destruct (PyStr.search_gca file_path) as [g|].
  - right. destruct Hscan as (before & m & -> & Hm & Hleft).
    apply gca_at_spec in Hm as (d1 & d2 & rest & -> & -> & D1 & N1 & D2 & N2 & L).
    exists before, d1, d2, rest. split_and!; try done.
    intros before' d1' d2' rest' E D1' N1' D2' N2'.
    destruct (decide (String.length before ≤ String.length before'))
      as [|Hlt]; [done|].
    pose proof (Hleft before' _ E ltac:(lia)) as Hnone.
    destruct (gca_at_complete d1' d2' rest' D1' N1' D2' N2') as [g Hg].
    congruence.
  - left. split; [|done].
    intros (before & d1 & d2 & rest & E & D1 & N1 & D2 & N2).
    pose proof (Hscan before _ E) as Hnone.
    destruct (gca_at_complete d1 d2 rest D1 N1 D2 N2) as [g Hg].
    congruence.
Qed.

(** ** The TaxID column *)







Lemma rstrip_last (s x : string) (c : ascii) :
  PyStr.rstrip s = x +:+ String c "" → PyStr.isspace c = false.
Proof.
  revert x. induction s as [|a s IH]; intros x; simpl.
  - destruct x; [done|]. rewrite append_String. done.
  - destruct (PyStr.rstrip s) as [|b r] eqn:Hr.
    + destruct (PyStr.isspace a) eqn:Ha.
      * destruct x; [done|]. rewrite append_String. done.
      * destruct x as [|a' x]; [by intros [= <-]|].
        rewrite append_String. intros [= _ E]. by destruct x.
    + destruct x as [|a' x]; [done|].
      rewrite append_String. intros [= _ E]. by apply (IH x).
Qed.

Lemma rstrip_head (s : string) (c : ascii) (r : string) :
  PyStr.rstrip s = String c r → ∃ r', s = String c r'.
Proof.
  destruct s as [|a s]; simpl; [done|].
  destruct (PyStr.rstrip s); [destruct (PyStr.isspace a)|];
    intros [= <- _]; by eexists.
Qed.

Lemma lstrip_head (s : string) (c : ascii) (r : string) :
  PyStr.lstrip s = String c r → PyStr.isspace c = false.
Proof.
  induction s as [|a s IH]; simpl; [done|].
  destruct (PyStr.isspace a) eqn:Ha; [done|]. by intros [= <- _].
Qed.

Lemma strip_head (s : string) (c : ascii) (r : string) :
  PyStr.strip s = String c r → PyStr.isspace c = false.
Proof.
  unfold PyStr.strip. intros E. apply rstrip_head in E as [r' E].
  by apply lstrip_head in E.
Qed.

Lemma split_on_length (sep : ascii) (s : string) :
  ∀ cur, 1 ≤ length (split_on sep cur s).
Proof. induction s as [|c s IH]; intros cur; simpl; [lia|]. destruct (Ascii.eqb c sep); simpl; [lia | apply IH]. Qed.

Lemma split_on_one (s : string) : ∀ cur x,
  split_on tab cur s = [x] → x = cur +:+ s ∧ no_tab s = true.
Proof.
  induction s as [|c s IH]; intros cur x; simpl.
  - intros [= <-]. by rewrite append_empty_r.
  - destruct (Ascii.eqb c tab) eqn:Hc.
    + intros [= _ E]. pose proof (split_on_length tab s "") as Hl.
      rewrite E in Hl. simpl in Hl. lia.
    + intros E. apply IH in E as [-> Hs]. rewrite append_assoc. done.
Qed.

Lemma split_on_two (s : string) : ∀ cur a b,
  split_on tab cur s = [a; b] →
  ∃ a', a = cur +:+ a' ∧ s = a' +:+ String tab b
        ∧ no_tab a' = true ∧ no_tab b = true.
Proof.
  induction s as [|c s IH]; intros cur a b; simpl; [done|].
  destruct (Ascii.eqb c tab) eqn:Hc.
  - intros [= <- E]. apply Ascii.eqb_eq in Hc as ->.
    apply split_on_one in E as [-> Hs].
    exists "". by rewrite append_empty_r.
  - intros E. apply IH in E as (a' & -> & -> & Ha & Hb).
    exists (String c a'). rewrite append_assoc, append_String.
    split_and!; try done. simpl. by rewrite Hc.
Qed.

Lemma split_on_no_tab (b : string) : ∀ cur,
  no_tab b = true → split_on tab cur b = [cur +:+ b].
Proof.
  induction b as [|c b IH]; intros cur Hb; simpl.
  - by rewrite append_empty_r.
  - simpl in Hb. apply andb_true_iff in Hb as [Hc Hb].
    apply negb_true_iff in Hc. rewrite Hc, IH by done.
    by rewrite append_assoc.
Qed.

Lemma split_on_pair (a b : string) : ∀ cur,
  no_tab a = true → no_tab b = true →
  split_on tab cur (a +:+ String tab b) = [cur +:+ a; b].
Proof.
  induction a as [|c a IH]; intros cur Ha Hb.
  - change ("" +:+ String tab b) with (String tab b). simpl.
    rewrite append_empty_r, split_on_no_tab by done. done.
  - simpl in Ha. apply andb_true_iff in Ha as [Hc Ha].
    apply negb_true_iff in Hc. rewrite append_String. simpl. rewrite Hc.
    rewrite IH by done. by rewrite append_assoc.
Qed.

Lemma taxid_line_lookup (m : gmap string string) (line gca : string) :
  taxid_line m line !! gca = m !! gca
  ∨ ∃ taxid, taxid_line m line !! gca = Some taxid
             ∧ PyStr.strip line = gca +:+ String tab taxid
             ∧ no_tab gca = true ∧ no_tab taxid = true.
Proof.
  unfold taxid_line.
  destruct (split_on tab "" (PyStr.strip line)) as [|a [|b [|? ?]]] eqn:E;
    try by left.
  apply split_on_two in E as (a' & -> & E & Ha & Hb).
  change ("" +:+ a') with a'.
  destruct (decide (a' = gca)) as [->|Hne].
  - right. exists b. by rewrite lookup_insert_eq.
  - left. by rewrite lookup_insert_ne.
Qed.

Lemma load_taxid_map_snoc (lines : list string) (line : string) :
  load_taxid_map (lines ++ [line]) = taxid_line (load_taxid_map lines) line.
Proof. unfold load_taxid_map. by rewrite fold_left_app. Qed.

(** X21. Every entry of the TaxID map comes from a line of the map file
    that is, once stripped, the key, a tab and the value; neither is empty
    and neither holds a tab.  So a line whose TaxID is missing defines
    nothing. *)
Theorem X21_taxid_entries_come_from_lines (taxid_map_file : list string)
    (gca taxid : string) :
  load_taxid_map taxid_map_file !! gca = Some taxid →
  (∃ line, line ∈ taxid_map_file
           ∧ PyStr.strip line = gca +:+ String tab taxid)
  ∧ PyStr.nonempty gca = true ∧ PyStr.nonempty taxid = true
  ∧ no_tab gca = true ∧ no_tab taxid = true.
Proof.
  induction taxid_map_file as [|line lines IH] using rev_ind; [done|].
  rewrite load_taxid_map_snoc.
  destruct (taxid_line_lookup (load_taxid_map lines) line gca)
    as [->|(t & -> & E & Hg & Ht)].
  - intros Hl. destruct (IH Hl) as ((l & Hin & El) & Hrest).
    split; [|done]. exists l. split; [|done]. apply elem_of_app. by left.
  - intros [= ->]. split_and!; try done.
    + exists line. split; [|done]. apply elem_of_app. right. apply elem_of_cons; by left.
    + destruct gca; [|done]. change ("" +:+ String tab taxid) with (String tab taxid) in E.
      by apply strip_head in E.
    + destruct taxid; [|done]. unfold PyStr.strip in E.
      by apply rstrip_last in E.
Qed.

(** X22. The last line that defines a key wins: after a line that strips
    to a key, a tab and a value, both without tabs, the map gives that
    value as long as no later line strips to the key, a tab and something
    else. *)
Theorem X22_last_taxid_line_wins (before later : list string)
    (line gca taxid : string) :
  PyStr.strip line = gca +:+ String tab taxid →
  no_tab gca = true → no_tab taxid = true →
  (∀ other t, other ∈ later → PyStr.strip other ≠ gca +:+ String tab t) →
  load_taxid_map (before ++ line :: later) !! gca = Some taxid.
Proof.
  intros E Hg Ht. induction later as [|other later IH] using rev_ind; intros Hlater.
  - rewrite load_taxid_map_snoc. unfold taxid_line.
    rewrite E, split_on_pair by done. change ("" +:+ gca) with gca.
    apply lookup_insert_eq.
  - rewrite app_comm_cons, app_assoc, load_taxid_map_snoc.
    destruct (taxid_line_lookup (load_taxid_map (before ++ line :: later))
                other gca) as [->|(t & _ & E' & _)].
    + apply IH. intros o t Ho. apply Hlater. apply elem_of_app. by left.
    + destruct (Hlater other t); [|done].
      apply elem_of_app. right. apply elem_of_cons; by left.
Qed.

(** ** The properties on the examples *)

(** X1 on the example. *)
Lemma X1_one_row_per_reference_witness :
  _match_sequence (example_index (B:=gset string)) "query1" "ACGTACGT"
    = Ok ([example_row], example_index)
  ∧ NoDup (reference <$> [example_row]).
Proof.
  assert (_match_sequence (example_index (B:=gset string)) "query1" "ACGTACGT"
          = Ok ([example_row], example_index)) as E
    by (vm_compute; reflexivity).
  split; [exact E|]. exact (X1_one_row_per_reference _ _ _ _ _ E).
Defined.

(** X2 on the example. *)
Lemma X2_matching_without_filter_witness :
  bloom (__init__ (B:=gset string) 3 4) = None
  ∧ _match_sequence (__init__ (B:=gset string) 3 4) "query1" "ACGTACGT"
    = if decide (String.length "ACGTACGT" < kmer_size (__init__ (B:=gset string) 3 4))
      then Ok ([], __init__ (B:=gset string) 3 4) else Raise TypeError.
Proof.
  split; [reflexivity|].
  exact (X2_matching_without_filter (__init__ (B:=gset string) 3 4)
           "query1" "ACGTACGT" eq_refl).
Defined.

(** X3 on the example. *)
Lemma X3_no_shared_kmer_no_row_witness :
  match_sequences (example_index (B:=gset string)) stray_query
    = Ok ([], example_index)
  ∧ ∀ name data kmer,
      (name, data) ∈ _read_fasta_file stray_query →
      kmer ∈ query_kmers (example_index (B:=gset string)) data →
      probe (example_index (B:=gset string)) kmer = true →
      refs_of (example_index (B:=gset string)) kmer = ∅.
Proof.
  assert (match_sequences (example_index (B:=gset string)) stray_query
          = Ok ([], example_index)) as E by (vm_compute; reflexivity).
  split; [exact E|].
  exact (proj1 (X3_no_shared_kmer_no_row _ _ _ _ E) eq_refl).
Defined.

(** X4 on the example. *)
Lemma X4_queries_are_independent_witness :
  match match_sequences (example_index (B:=bit_filter)) stray_query with
  | Ok (_, h1) =>
      h1 ≠ example_index
      ∧ emitted (match_sequences h1 example_query)
        = emitted (match_sequences (example_index (B:=bit_filter)) example_query)
  | Raise _ => False
  end.
Proof.
  destruct (match_sequences (example_index (B:=bit_filter)) stray_query)
    as [[rows h1]|e] eqn:E.
  - split; [|exact (X4_queries_are_independent _ _ _ _ example_query E)].
    vm_compute in E. injection E as _ <-. intros [=].
  - vm_compute in E. discriminate E.
Defined.

(** X5 on the example. *)
Lemma X5_what_matching_keeps_witness :
  match match_sequences (example_index (B:=bit_filter)) stray_query with
  | Ok (_, h') =>
      bloom h' = bloom (example_index (B:=bit_filter))
      ∧ dom (kmer_to_reference (example_index (B:=bit_filter)))
          ⊆ dom (kmer_to_reference h')
      ∧ ∀ kmer, refs_of h' kmer = refs_of (example_index (B:=bit_filter)) kmer
  | Raise _ => False
  end.
Proof.
  destruct (match_sequences (example_index (B:=bit_filter)) stray_query)
    as [[rows h']|e] eqn:E.
  - destruct (X5_what_matching_keeps _ _ _ _ E)
      as (_ & _ & Hb & _ & _ & _ & Hd & Hr & _).
    by split_and!.
  - vm_compute in E. discriminate E.
Defined.

(** The build of the example adds six k-mers to a filter made for
    twenty-four. *)
Lemma example_within_capacity : within_capacity (B:=gset string) 3 example_db.
Proof.
  eexists _, 6, _. split_and!; [vm_compute; reflexivity..|].
  vm_compute. lia.
Qed.

(** X6 on the example. *)
Lemma X6_raw_counts_add_up_witness :
  build 3 example_db = Ok (example_index (B:=gset string))
  ∧ within_capacity (B:=gset string) 3 example_db
  ∧ let capacity :=
      _estimate_total_kmers_in_db (__init__ (B:=gset string) 3 4) example_db * 4 in
    ∃ inserted,
      bloom (example_index (B:=gset string))
        = Some (add_all inserted (bf_new capacity))
      ∧ length inserted ≤ capacity
      ∧ sum_counts (reference_kmer_count (example_index (B:=gset string)))
        = length inserted
      ∧ ∃ h1, _initialize_bloom_filter (__init__ (B:=gset string) 3 4) capacity
              = Ok h1
          ∧ _load_kmers_into_bloom h1 example_db
            = Ok (length inserted, example_index (B:=gset string)).
Proof.
  assert (build 3 example_db = Ok (example_index (B:=gset string))) as E
    by (vm_compute; reflexivity).
  split; [exact E|]. split; [exact example_within_capacity|].
  exact (X6_raw_counts_add_up _ _ _ E example_within_capacity).
Defined.

(** X8 on the example. *)
Lemma X8_fasta_only_database_is_rejected_witness :
  _estimate_total_kmers_in_db (__init__ (B:=gset string) 3 4) fasta_db = 0
  ∧ load_database_multithreaded (__init__ (B:=gset string) 3 4) fasta_db 4
    = Raise ValueError.
Proof.
  split; [vm_compute; reflexivity|].
  apply X8_fasta_only_database_is_rejected.
  intros f Hf. apply elem_of_cons in Hf as [-> | Hf].
  - vm_compute. reflexivity.
  - by apply elem_of_nil in Hf.
Defined.

(** X9 on the example. *)
Lemma X9_catalogued_kmers_have_length_k_witness :
  build 3 example_db = Ok (example_index (B:=gset string))
  ∧ kmer_size (example_index (B:=gset string)) = 3
  ∧ (∀ kmer, kmer ∈ dom (kmer_to_reference (example_index (B:=gset string))) →
             String.length kmer = 3)
  ∧ (∀ ref kmer, kmer ∈ kmers_for (example_index (B:=gset string)) ref →
                 String.length kmer = 3).
Proof.
  assert (build 3 example_db = Ok (example_index (B:=gset string))) as E
    by (vm_compute; reflexivity).
  split; [exact E|]. exact (X9_catalogued_kmers_have_length_k _ _ _ E).
Defined.

(** X10 on the example. *)
Lemma X10_catalog_is_consistent_witness :
  build 3 example_db = Ok (example_index (B:=gset string))
  ∧ within_capacity (B:=gset string) 3 example_db
  ∧ catalog_consistent (example_index (B:=gset string))
  ∧ ∀ ref, size (kmers_for (example_index (B:=gset string)) ref)
           ≤ default 0 (reference_kmer_count (example_index (B:=gset string)) !! ref).
Proof.
  assert (build 3 example_db = Ok (example_index (B:=gset string))) as E
    by (vm_compute; reflexivity).
  split; [exact E|]. split; [exact example_within_capacity|].
  exact (X10_catalog_is_consistent _ _ _ E example_within_capacity).
Defined.

(** X11 on the example. *)
Lemma X11_other_kmer_size_matches_nothing_witness :
  match load_bloom_filter (default_handler (B:=gset string))
          (PyStr.path_join "db_bloom" "bloom_filter.pkl")
          (save_bloom_filter example_index "db_bloom" ∅) with
  | Ok h1 =>
      match match_sequences h1 example_query with
      | Ok (rows, _) => rows = []
      | Raise _ => False
      end
  | Raise _ => False
  end.
Proof.
  destruct (load_bloom_filter (default_handler (B:=gset string))
              (PyStr.path_join "db_bloom" "bloom_filter.pkl")
              (save_bloom_filter example_index "db_bloom" ∅)) as [h1|e] eqn:L.
  - destruct (match_sequences h1 example_query) as [[rows h']|e] eqn:M.
    + apply (X11_other_kmer_size_matches_nothing (B:=gset string) 3 example_db
               example_index "db_bloom" ∅ default_handler h1 example_query
               rows h'); [vm_compute; reflexivity | | exact L | exact M].
      vm_compute. intros [=].
    + vm_compute in L. injection L as <-. vm_compute in M. discriminate M.
  - vm_compute in L. discriminate L.
Defined.

(** X12 on the example. *)
Lemma X12_rows_of_a_built_index_witness :
  match_sequences (example_index (B:=gset string)) example_query
    = Ok ([example_row], example_index)
  ∧ within_capacity (B:=gset string) 3 example_db
  ∧ 1 ≤ matched_kmers example_row
  ∧ matched_kmers example_row ≤ total_input_kmers example_row
  ∧ matched_kmers example_row ≤ reference_total_kmers example_row
  ∧ PyStr.nonempty (reference example_row) = true
  ∧ reference_kmer_count (example_index (B:=gset string)) !! reference example_row
    = Some (reference_total_kmers example_row)
  ∧ reference_gca_map (example_index (B:=gset string)) !! reference example_row
    = Some (gca_name example_row).
Proof.
  assert (match_sequences (example_index (B:=gset string)) example_query
          = Ok ([example_row], example_index)) as E by (vm_compute; reflexivity).
  split; [exact E|]. split; [exact example_within_capacity|].
  apply (X12_rows_of_a_built_index (B:=gset string) 3 example_db example_index
           example_query [example_row] example_index);
    [vm_compute; reflexivity | exact example_within_capacity | exact E |].
  apply elem_of_cons. by left.
Defined.

(** X13 on the example. *)
Lemma X13_no_sequence_is_stored_witness :
  build 3 example_db = Ok (example_index (B:=gset string))
  ∧ get_reference_sequence (example_index (B:=gset string)) "ref1" = "".
Proof.
  assert (build 3 example_db = Ok (example_index (B:=gset string))) as E
    by (vm_compute; reflexivity).
  split; [exact E|]. exact (X13_no_sequence_is_stored _ _ _ "ref1" E).
Defined.

(** X14 on the example. *)
Lemma X14_estimate_is_exact_on_fna_witness :
  build 3 example_db = Ok (example_index (B:=gset string))
  ∧ sum_counts (reference_kmer_count (example_index (B:=gset string)))
    = _estimate_total_kmers_in_db (__init__ (B:=gset string) 3 4) example_db.
Proof.
  assert (build 3 example_db = Ok (example_index (B:=gset string))) as E
    by (vm_compute; reflexivity).
  split; [exact E|].
  apply (X14_estimate_is_exact_on_fna (B:=gset string) 3 example_db);
    [lia | | exact E].
  intros f Hf _. apply elem_of_cons in Hf as [-> | Hf].
  - split; vm_compute; reflexivity.
  - by apply elem_of_nil in Hf.
Defined.

(** X15 on the example. *)
Lemma X15_nameless_records_are_dropped_witness :
  ∃ h', _process_file_kmers (example_index (B:=gset string)) nameless_file
        = Ok (0, h')
    ∧ bloom h' = bloom (example_index (B:=gset string))
    ∧ kmer_to_reference h' = kmer_to_reference (example_index (B:=gset string))
    ∧ reference_kmer_count h'
      = reference_kmer_count (example_index (B:=gset string))
    ∧ ∀ ref, ref ≠ "" →
        reference_gca_map h' !! ref
        = reference_gca_map (example_index (B:=gset string)) !! ref.
Proof.
  apply X15_nameless_records_are_dropped; [|by eexists].
  intros raw name w Hraw Hstart Hname.
  apply elem_of_cons in Hraw as [-> | Hraw].
  - vm_compute in Hname. by injection Hname as <- _.
  - apply elem_of_cons in Hraw as [-> | Hraw].
    + vm_compute in Hstart. discriminate Hstart.
    + by apply elem_of_nil in Hraw.
Defined.

(** X17 on the example. *)
Lemma X17_name_is_first_token_witness :
  _extract_reference_name (">" +:+ "ref1" +:+ " example reference")
    = Ok ("ref1", None).
Proof.
  apply X17_name_is_first_token; vm_compute; reflexivity.
Defined.


(** X21 on the example. *)
Lemma X21_taxid_entries_come_from_lines_witness :
  load_taxid_map example_taxid_map !! "GCA_000123.1" = Some "10239"
  ∧ (∃ line, line ∈ example_taxid_map
             ∧ PyStr.strip line = "GCA_000123.1" +:+ String tab "10239")
  ∧ PyStr.nonempty "GCA_000123.1" = true ∧ PyStr.nonempty "10239" = true
  ∧ no_tab "GCA_000123.1" = true ∧ no_tab "10239" = true.
Proof.
  assert (load_taxid_map example_taxid_map !! "GCA_000123.1" = Some "10239")
    as E by (vm_compute; reflexivity).
  split; [exact E|]. exact (X21_taxid_entries_come_from_lines _ _ _ E).
Defined.

(** X22 on the example. *)
Lemma X22_last_taxid_line_wins_witness :
  load_taxid_map example_taxid_map !! "GCA_000123.1" = Some "10239".
Proof.
  apply (X22_last_taxid_line_wins
           ["# accession, taxid
"; "GCA_000123.1" +:+ String tab "1
"]
           ["GCA_000456.2" +:+ String tab "
"]
           ("GCA_000123.1" +:+ String tab "10239
") "GCA_000123.1" "10239"); try (vm_compute; reflexivity).
  intros other t Hother E. apply elem_of_cons in Hother as [-> | Hother].
  - vm_compute in E. discriminate E.
  - by apply elem_of_nil in Hother.
Defined.
